(** * Multisphere._calc_field (scattering/theory/multisphere.py)

    A shallow embedding of the multi-sphere field calculation: validity
    guards, nondimensionalisation of the cluster, the call of the SCSMFO
    kernel, the convergence test, truncation and NaN screen of the expansion
    coefficients, field reconstruction and the phase correction.

    The numeric layer (numpy float64 / complex128) is an interface,
    [NumPy]; the pipeline is written once over it.  Two implementations are
    given: IEEE binary64 ([binary64], on the kernel's primitive floats),
    which is what the program runs on, and the real numbers ([exact]), the
    arithmetic without rounding.  The Fortran kernels and np.exp are
    parameters of the calculation ([Externals]); a run yields its outcome
    (an exception or the field) and the trace of its steps: the solver
    call, the truncation, the two NaN tests and the reconstruction. *)

From Stdlib Require Import String ZArith List Bool Lia.
From Stdlib Require Import Reals Lra.
From Stdlib Require Import Floats.
Import ListNotations.

Set Implicit Arguments.

(** ** The numeric interface *)

Class NumPy : Type := {
  float : Type;                                   (* numpy.float64 *)
  fadd : float -> float -> float;
  fsub : float -> float -> float;
  fmul : float -> float -> float;
  fdiv : float -> float -> float;
  fneg : float -> float;                          (* unary minus *)
  fgt : float -> float -> bool;                   (* a > b *)
  fle : float -> float -> bool;                   (* a <= b *)
  feq : float -> float -> bool;                   (* a == b *)
  fisnan : float -> bool;                         (* np.isnan *)
  of_int : Z -> float;                            (* int -> float64 *)
  np_pi : float;
  (* complex numbers, pairs (real, imag): the product, numpy's quotient of
     complex128 values, and the quotient of Python's complex by a divisor
     that is not zero *)
  cmul : float * float -> float * float -> float * float;
  cdiv : float * float -> float * float -> float * float;
  py_cquot : float * float -> float * float -> float * float;
  (* a <= b excludes a > b, also when a NaN is compared *)
  fle_not_fgt : forall a b, fle a b = true -> fgt a b = false
}.

Section Model.

Context {NP : NumPy}.

Definition complex : Type := (float * float)%type.
Definition real (c : complex) : float := fst c.
Definition imag (c : complex) : float := snd c.
(* a float promoted to complex: x + 0j *)
Definition of_float (x : float) : complex := (x, of_int 0).
(* np.isnan on a complex value: either part is NaN *)
Definition cisnan (c : complex) : bool := fisnan (real c) || fisnan (imag c).

(** *** Arrays *)

Definition vec3 : Type := (float * float * float)%type.
Definition cvec3 : Type := (complex * complex * complex)%type.
(* an N x 3 float array, by rows *)
Definition array2 : Type := list vec3.
(* a 3-dimensional complex array, outermost axis first *)
Definition array3 : Type := list (list (list complex)).

Definition col0 (a : array2) : list float := map (fun v => fst (fst v)) a.
Definition col1 (a : array2) : list float := map (fun v => snd (fst v)) a.
Definition col2 (a : array2) : list float := map (fun v => snd v) a.

(* np.add.reduce over axis 0 of an N x 3 array, one column of it: the rows
   are added one after the other *)
Definition np_sum (l : list float) : float :=
  match l with
  | [] => of_int 0
  | x :: t => fold_left fadd t x
  end.

(* the mean over axis 0, one column of it: the sum divided by the count *)
Definition np_mean (l : list float) : float :=
  fdiv (np_sum l) (of_int (Z.of_nat (length l))).

(* -0.0, the value a float sum starts from: adding it changes no value,
   where 0.0 would turn a sum of negative zeros into 0.0 *)
Definition neg_zero : float := fneg (of_int 0).

(* numpy's sum of a 1-d array, pairwise from eight values on.  Fewer than
   eight values are added one by one.  Otherwise eight lanes take the first
   eight values; every further full block of eight is added lane by lane;
   the lanes are combined in pairs and the values left over are added one by
   one.  Above 128 values the array is split in two, the first part a
   multiple of eight. *)
Fixpoint add_lanes (r a : list float) : list float :=
  match r, a with
  | x :: r', y :: a' => fadd x y :: add_lanes r' a'
  | _, _ => r
  end.

Fixpoint unrolled (blocks : nat) (r l : list float)
  : list float * list float :=
  match blocks with
  | O => (r, l)
  | S b => unrolled b (add_lanes r (firstn 8 l)) (skipn 8 l)
  end.

Definition combine_lanes (r : list float) : float :=
  match r with
  | [r0; r1; r2; r3; r4; r5; r6; r7] =>
      fadd (fadd (fadd r0 r1) (fadd r2 r3)) (fadd (fadd r4 r5) (fadd r6 r7))
  | _ => of_int 0
  end.

Definition block_sum (l : list float) : float :=
  let '(r, rest) := unrolled ((length l - 8) / 8) (firstn 8 l) (skipn 8 l) in
  fold_left fadd rest (combine_lanes r).

(* the fuel bounds the depth of the splitting; the length of the array is
   enough *)
Fixpoint pairwise_sum (fuel : nat) (l : list float) : float :=
  if length l <? 8 then fold_left fadd l neg_zero
  else if length l <=? 128 then block_sum l
  else
    match fuel with
    | O => block_sum l
    | S f =>
        let n2 := length l / 2 - (length l / 2) mod 8 in
        fadd (pairwise_sum f (firstn n2 l)) (pairwise_sum f (skipn n2 l))
    end.

(* np.add.reduce of a 1-d array: the pairwise sum added to the initial
   value, -0.0; the empty sum is 0.0 *)
Definition np_sum_1d (l : list float) : float :=
  match l with
  | [] => of_int 0
  | _ :: _ => fadd neg_zero (pairwise_sum (length l) l)
  end.

(* ndarray.mean of a 1-d array *)
Definition np_mean_1d (l : list float) : float :=
  fdiv (np_sum_1d l) (of_int (Z.of_nat (length l))).

(* a.mean(0) of an N x 3 array: the mean of each column *)
Definition mean0 (a : array2) : vec3 :=
  (np_mean (col0 a), np_mean (col1 a), np_mean (col2 a)).

(* a - v, the row v broadcast over the rows of a *)
Definition sub_row (a : array2) (v : vec3) : array2 :=
  map (fun p => let '(x, y, z) := p in let '(vx, vy, vz) := v in
                (fsub x vx, fsub y vy, fsub z vz)) a.

(* a * k for a scalar k *)
Definition mul_scalar2 (a : array2) (k : float) : array2 :=
  map (fun p => let '(x, y, z) := p in (fmul x k, fmul y k, fmul z k)) a.

(* (a > k).any() *)
Definition any_gt (a : array2) (k : float) : bool :=
  existsb (fun p => let '(x, y, z) := p in fgt x k || fgt y k || fgt z k) a.

(* Python's l[0:stop] *)
Definition slice0 {A} (stop : Z) (l : list A) : list A :=
  let len := Z.of_nat (length l) in
  let stop' := if (stop <? 0)%Z then Z.max 0 (len + stop) else Z.min stop len in
  firstn (Z.to_nat stop') l.

(* a[:, 0:limit, :] *)
Definition slice_axis1 (limit : Z) (a : array3) : array3 :=
  map (slice0 limit) a.

(* np.isnan(a).any() *)
Definition any_isnan (a : array3) : bool :=
  existsb (existsb (existsb cisnan)) a.

(** *** Scatterers, optics, target, theory *)

(* a Python number: a float or a complex *)
Inductive number :=
| PyFloat (x : float)
| PyComplex (c : complex).

(* a 1-d array of dtype float64 or complex128 *)
Inductive ndarray :=
| float64 (l : list float)
| complex128 (l : list complex).

Definition is_float (x : number) : bool :=
  match x with PyFloat _ => true | PyComplex _ => false end.
Definition as_float (x : number) : float :=
  match x with PyFloat x => x | PyComplex c => real c end.
(* a float promoted to complex128 is x + 0j *)
Definition as_complex (x : number) : complex :=
  match x with PyFloat x => of_float x | PyComplex c => c end.

(* np.array of a list of numbers: float64 when all of them are floats,
   complex128 otherwise *)
Definition np_array (l : list number) : ndarray :=
  if forallb is_float l
  then float64 (map as_float l)
  else complex128 (map as_complex l).

(* a / b for a float b: the division of float64, or the quotient of
   complex128 by b + 0j *)
Definition divide (a : ndarray) (b : float) : ndarray :=
  match a with
  | float64 l => float64 (map (fun x => fdiv x b) l)
  | complex128 l => complex128 (map (fun c => cdiv c (of_float b)) l)
  end.

(* a.real and a.imag; a float64 array has the imaginary part 0 *)
Definition array_real (a : ndarray) : list float :=
  match a with
  | float64 l => l
  | complex128 l => map real l
  end.
Definition array_imag (a : ndarray) : list float :=
  match a with
  | float64 l => map (fun _ => of_int 0) l
  | complex128 l => map imag l
  end.

Record Sphere := {
  n : number;                (* refractive index *)
  r : float;                 (* radius *)
  center : vec3
}.

Inductive Scatterer :=
| SingleSphere (s : Sphere)                 (* a Sphere that is no cluster *)
| SphereCluster (scatterers : list Sphere).

(** Modelled from the spec: the aggregate attributes of SphereCluster
    (scattering/scatterer is not part of the sources): the array of centres,
    of radii, of refractive indices and of z positions, in sphere order. *)
Definition centers (scatterers : list Sphere) : array2 := map center scatterers.
Definition radii (scatterers : list Sphere) : list float := map r scatterers.
Definition indices (scatterers : list Sphere) : ndarray :=
  np_array (map n scatterers).
Definition zs (scatterers : list Sphere) : list float := col2 (centers scatterers).

Record Optics := {
  wavevec : float;
  index : float;             (* refractive index of the medium *)
  med_wavelen : float;
  polarization : float * float
}.

(** Modelled from the spec: the target geometry (core.data is not part of
    the sources): spherical sample coordinates about an origin, and the map
    of flat per-point vectors back onto the target's layout. *)
Record Target := {
  optics : Optics;
  positions_kr_theta_phi : vec3 -> array2;
  from_1d : list cvec3 -> list cvec3
}.

Record Multisphere := {
  niter : Z;
  eps : float;
  meth : Z;
  qeps1 : float;
  qeps2 : float
}.

(** *** The external routines *)

(* the arguments of scsmfo_min.amncalc, in call order *)
Record AmncalcArgs := {
  a_flag : Z;
  a_x : list float;
  a_y : list float;
  a_z : list float;
  a_mreal : list float;
  a_mimag : list float;
  a_radii : list float;
  a_niter : Z;
  a_eps : float;
  a_qeps1 : float;
  a_qeps2 : float;
  a_meth : Z;
  a_ctl : Z * Z
}.

Record AmncalcResult := {
  out0 : Z;                  (* first output, not used *)
  lmax : Z;
  amn0 : array3;
  converged : Z              (* F77 LOGICAL as an int *)
}.

(* the arguments of mieangfuncs.tmatrix_fields *)
Record TmatrixArgs := {
  t_kr_theta_phi : list float * list float * list float;   (* 3 x P *)
  t_amn : array3;
  t_lmax : Z;
  t_flag : Z;
  t_polarization : float * float
}.

(* the three field components, one array each *)
Definition Fields : Type := (list complex * list complex * list complex)%type.

Record Externals := {
  amncalc : AmncalcArgs -> AmncalcResult;
  tmatrix_fields : TmatrixArgs -> Fields;
  np_exp : complex -> complex
}.

(** *** Exceptions and the trace *)

Inductive Exception :=
| TheoryNotCompatibleError (theory : Multisphere) (scatterer : Scatterer)
| UnrealizableScatterer (theory : Multisphere) (who : Sphere + Scatterer)
                        (message : string)
| MultisphereFieldNaN (theory : Multisphere) (scatterer : Scatterer)
                      (message : string)
| MultisphereExpansionNaN
| ConvergenceFailureMultisphere
| IndexError
| ValueError
| ZeroDivisionError.

Inductive Event :=
| Ev_amncalc (args : AmncalcArgs)          (* the solver is invoked *)
| Ev_truncate (limit : Z)                  (* amn0[:, 0:limit, :] is taken *)
| Ev_isnan_amn (amn : array3)              (* np.isnan(amn).any() *)
| Ev_tmatrix_fields (args : TmatrixArgs)   (* field reconstruction *)
| Ev_isnan_field (v : complex).            (* np.isnan(fields[0][0]) *)

(* a computation: the steps it took and how it ended *)
Definition M (A : Type) : Type := (list Event * (Exception + A))%type.

Definition ret {A} (a : A) : M A := ([], inr a).
Definition raise {A} (e : Exception) : M A := ([], inl e).
Definition emit (ev : Event) : M unit := ([ev], inr tt).
Definition bind {A B} (m : M A) (f : A -> M B) : M B :=
  match m with
  | (t, inl e) => (t, inl e)
  | (t, inr a) => let '(t', res) := f a in (t ++ t', res)
  end.

Notation "x <- m ;; k" := (bind m (fun x => k))
  (at level 61, m at next level, right associativity).
Notation "m ;;; k" := (bind m (fun _ => k))
  (at level 61, right associativity).

Definition trace {A} (m : M A) : list Event := fst m.
Definition outcome {A} (m : M A) : Exception + A := snd m.

(** *** The calculation *)

Definition radius_message : string :=
  "radius too large, field calculation would take forever".
Definition separation_message : string :=
  "Particle separation too large, calculation would take forever".

(* for s in scatterer.scatterers: if s.r * wavevec > 1e3: raise ... *)
Fixpoint check_radii (self : Multisphere) (k : float) (l : list Sphere)
  : M unit :=
  match l with
  | [] => ret tt
  | s :: rest =>
      if fgt (fmul (r s) k) (of_int 1000)
      then raise (UnrealizableScatterer self (inl s) radius_message)
      else check_radii self k rest
  end.

(* (scatterer.centers - scatterer.centers.mean(0)) * wavevec *)
Definition nondim_centers (scatterers : list Sphere) (k : float) : array2 :=
  mul_scalar2 (sub_row (centers scatterers) (mean0 (centers scatterers))) k.

(* scatterer.n / target.optics.index *)
Definition relative_index (scatterers : list Sphere) (medium : float)
  : ndarray :=
  divide (indices scatterers) medium.

(* the argument tuple of the amncalc call *)
Definition amncalc_args (self : Multisphere) (scatterers : list Sphere)
    (target : Target) : AmncalcArgs :=
  let k := wavevec (optics target) in
  let c := nondim_centers scatterers k in
  let m := relative_index scatterers (index (optics target)) in
  {| a_flag := 1;
     a_x := col0 c;
     a_y := col1 c;
     a_z := map (fmul (fneg (of_int 1))) (col2 c);
     a_mreal := array_real m;
     a_mimag := array_imag m;
     a_radii := map (fun x => fmul x k) (radii scatterers);
     a_niter := niter self;
     a_eps := eps self;
     a_qeps1 := qeps1 self;
     a_qeps2 := qeps2 self;
     a_meth := meth self;
     a_ctl := (0, 0)%Z |}.

(* a.T of a P x 3 array *)
Definition transpose (a : array2) : list float * list float * list float :=
  (col0 a, col1 a, col2 a).

(* np.vstack(fields).T: the components stacked and transposed to P x 3;
   arrays of different lengths do not stack *)
Fixpoint zip3 (a b c : list complex) : option (list cvec3) :=
  match a, b, c with
  | [], [], [] => Some []
  | x :: a', y :: b', z :: c' =>
      match zip3 a' b' c' with
      | Some l => Some ((x, y, z) :: l)
      | None => None
      end
  | _, _, _ => None
  end.

Definition vstack_T (f : Fields) : M (list cvec3) :=
  let '(fx, fy, fz) := f in
  match zip3 fx fy fz with
  | Some l => ret l
  | None => raise ValueError
  end.

(* fields[0][0] *)
Definition first_value (f : Fields) : M complex :=
  let '(fx, _, _) := f in
  match fx with
  | [] => raise IndexError
  | v :: _ => ret v
  end.

(* -1j *)
Definition neg_j : complex := (fneg (of_int 0), fneg (of_int 1)).

(* -1j*np.pi*2*scatterer.z.mean() / target.optics.med_wavelen, for a
   wavelength that is not zero: products and quotient of Python's complex *)
Definition phase_argument (zmean lambda : float) : complex :=
  py_cquot (cmul (cmul (cmul neg_j (of_float np_pi)) (of_float (of_int 2)))
                 (of_float zmean))
           (of_float lambda).

(* np.exp of it, scatterer.z.mean() being the mean of a 1-d array *)
Definition phase_factor (ext : Externals) (scatterers : list Sphere)
    (target : Target) : complex :=
  np_exp ext (phase_argument (np_mean_1d (zs scatterers))
                             (med_wavelen (optics target))).

(* result * phase *)
Definition scale (res : list cvec3) (phase : complex) : list cvec3 :=
  map (fun v => let '(x, y, z) := v in
                (cmul x phase, cmul y phase, cmul z phase)) res.

Definition _calc_field (ext : Externals) (self : Multisphere)
    (scatterer : Scatterer) (target : Target) : M (list cvec3) :=
  match scatterer with
  | SingleSphere _ => raise (TheoryNotCompatibleError self scatterer)
  | SphereCluster scatterers =>
      let k := wavevec (optics target) in
      check_radii self k scatterers ;;;
      let c := nondim_centers scatterers k in
      if any_gt c (of_int 10000)
      then raise (UnrealizableScatterer self (inr scatterer) separation_message)
      else
        let args := amncalc_args self scatterers target in
        emit (Ev_amncalc args) ;;;
        let res := amncalc ext args in
        if (converged res =? 0)%Z
        then raise ConvergenceFailureMultisphere
        else
          let limit := (lmax res ^ 2 + 2 * lmax res)%Z in
          emit (Ev_truncate limit) ;;;
          let amn := slice_axis1 limit (amn0 res) in
          emit (Ev_isnan_amn amn) ;;;
          if any_isnan amn
          then raise MultisphereExpansionNaN
          else
            let targs :=
              {| t_kr_theta_phi :=
                   transpose (positions_kr_theta_phi target
                                (mean0 (centers scatterers)));
                 t_amn := amn;
                 t_lmax := lmax res;
                 t_flag := 0;
                 t_polarization := polarization (optics target) |} in
            emit (Ev_tmatrix_fields targs) ;;;
            let fields := tmatrix_fields ext targs in
            v <- first_value fields ;;
            emit (Ev_isnan_field v) ;;;
            if cisnan v
            then raise (MultisphereFieldNaN self scatterer "")
            else
              (* the division by the wavelength: Python's complex division
                 raises when the divisor is zero *)
              if feq (med_wavelen (optics target)) (of_int 0)
              then raise ZeroDivisionError
              else
                let phase := phase_factor ext scatterers target in
                stacked <- vstack_T fields ;;
                ret (scale (from_1d target stacked) phase)
  end.

End Model.

(** ** IEEE binary64 *)

Module Binary64.

(* an integer rounded to the nearest binary64 value *)
Definition of_Z (z : Z) : PrimFloat.float :=
  SF2Prim (binary_normalize prec emax z 0 false).

Definition mul (a b : PrimFloat.float * PrimFloat.float)
  : PrimFloat.float * PrimFloat.float :=
  (fst a * fst b - snd a * snd b, fst a * snd b + snd a * fst b)%float.

(* numpy's division of complex128 values: the quotient is scaled by the
   larger part of the divisor *)
Definition div (a b : PrimFloat.float * PrimFloat.float)
  : PrimFloat.float * PrimFloat.float :=
  let in2r_abs := PrimFloat.abs (fst b) in
  let in2i_abs := PrimFloat.abs (snd b) in
  (if in2i_abs <=? in2r_abs
   then
     if (in2r_abs =? 0) && (in2i_abs =? 0)
     then (fst a / in2r_abs, snd a / in2r_abs)
     else
       let rat := snd b / fst b in
       let scl := 1 / (fst b + snd b * rat) in
       ((fst a + snd a * rat) * scl, (snd a - fst a * rat) * scl)
   else
     let rat := fst b / snd b in
     let scl := 1 / (snd b + fst b * rat) in
     ((fst a * rat + snd a) * scl, (snd a * rat - fst a) * scl))%float.

(* the quotient of Python's complex numbers; for a zero divisor the caller
   raises ZeroDivisionError *)
Definition quot (a b : PrimFloat.float * PrimFloat.float)
  : PrimFloat.float * PrimFloat.float :=
  let abs_breal := (if fst b <? 0 then - fst b else fst b)%float in
  let abs_bimag := (if snd b <? 0 then - snd b else snd b)%float in
  (if abs_bimag <=? abs_breal
   then
     if abs_breal =? 0
     then (0, 0)
     else
       let ratio := snd b / fst b in
       let denom := fst b + snd b * ratio in
       ((fst a + snd a * ratio) / denom, (snd a - fst a * ratio) / denom)
   else if abs_breal <=? abs_bimag
   then
     let ratio := fst b / snd b in
     let denom := fst b * ratio + snd b in
     ((fst a * ratio + snd a) / denom, (snd a * ratio - fst a) / denom)
   else (nan, nan))%float.

Definition pi : PrimFloat.float := 0x1.921fb54442d18p+1%float.

End Binary64.

Lemma SFcompare_antisym (a b : spec_float) :
  SFcompare b a = option_map CompOpp (SFcompare a b).
Proof.
  destruct a as [sa|sa| |sa ma ea], b as [sb|sb| |sb mb eb]; simpl;
    try reflexivity;
    try (destruct sa; reflexivity); try (destruct sb; reflexivity);
    try (destruct sa, sb; reflexivity).
  destruct sa, sb; try reflexivity;
    rewrite (Z.compare_antisym ea eb);
    destruct (ea ?= eb)%Z; simpl; try reflexivity;
    change (PosDef.Pos.compare_cont Eq mb ma) with (Pos.compare mb ma);
    change (PosDef.Pos.compare_cont Eq ma mb) with (Pos.compare ma mb);
    rewrite (Pos.compare_antisym ma mb);
    destruct (ma ?= mb)%positive; reflexivity.
Qed.

Lemma leb_not_gtb (a b : PrimFloat.float) :
  PrimFloat.leb a b = true -> PrimFloat.ltb b a = false.
Proof.
  rewrite leb_spec, ltb_spec. unfold SFleb, SFltb.
  rewrite (SFcompare_antisym (Prim2SF a) (Prim2SF b)).
  destruct (SFcompare (Prim2SF a) (Prim2SF b)) as [[ | | ]|]; simpl;
    congruence.
Qed.

Definition binary64 : NumPy := {|
  float := PrimFloat.float;
  fadd := PrimFloat.add;
  fsub := PrimFloat.sub;
  fmul := PrimFloat.mul;
  fdiv := PrimFloat.div;
  fneg := PrimFloat.opp;
  fgt := fun a b => PrimFloat.ltb b a;
  fle := PrimFloat.leb;
  feq := PrimFloat.eqb;
  fisnan := PrimFloat.is_nan;
  of_int := Binary64.of_Z;
  np_pi := Binary64.pi;
  cmul := Binary64.mul;
  cdiv := Binary64.div;
  py_cquot := Binary64.quot;
  fle_not_fgt := leb_not_gtb
|}.

(** ** Exact arithmetic: the real numbers *)

Module Exact.

Definition gt (a b : R) : bool := if Rgt_dec a b then true else false.
Definition le (a b : R) : bool := if Rle_dec a b then true else false.
Definition eqb (a b : R) : bool := if Req_dec_T a b then true else false.

Definition mul (a b : R * R) : R * R :=
  (fst a * fst b - snd a * snd b, fst a * snd b + snd a * fst b)%R.

Definition div (a b : R * R) : R * R :=
  let d := (fst b * fst b + snd b * snd b)%R in
  ((fst a * fst b + snd a * snd b) / d,
   (snd a * fst b - fst a * snd b) / d)%R.

(* the complex exponential *)
Definition cexp (c : R * R) : R * R :=
  (exp (fst c) * cos (snd c), exp (fst c) * sin (snd c))%R.

(* the modulus of a complex number *)
Definition cabs (c : R * R) : R :=
  R_sqrt.sqrt (fst c * fst c + snd c * snd c).

End Exact.

Lemma le_not_gt (a b : R) : Exact.le a b = true -> Exact.gt a b = false.
Proof.
  unfold Exact.le, Exact.gt.
  destruct (Rle_dec a b), (Rgt_dec a b); intros; try reflexivity;
    try discriminate; lra.
Qed.

Definition exact : NumPy := {|
  float := R;
  fadd := Rplus;
  fsub := Rminus;
  fmul := Rmult;
  fdiv := Rdiv;
  fneg := Ropp;
  fgt := Exact.gt;
  fle := Exact.le;
  feq := Exact.eqb;
  fisnan := fun _ => false;
  of_int := IZR;
  np_pi := PI;
  cmul := Exact.mul;
  cdiv := Exact.div;
  py_cquot := Exact.div;
  fle_not_fgt := le_not_gt
|}.

(** ** Properties of the calculation, for every numeric implementation *)

Unset Implicit Arguments.

Section Properties.

Context {NP : NumPy}.

Variable ext : Externals.
Variable self : Multisphere.

(* no sphere of the list has r * wavevec > 1e3 *)
Definition radii_ok (k : float) (l : list Sphere) : Prop :=
  forall s, In s l -> fgt (fmul (r s) k) (of_int 1000) = false.

(* no nondimensional coordinate is > 1e4 *)
Definition separation_ok (k : float) (l : list Sphere) : Prop :=
  any_gt (nondim_centers l k) (of_int 10000) = false.

(* both guards let the cluster through *)
Definition guards_pass (l : list Sphere) (target : Target) : Prop :=
  radii_ok (wavevec (optics target)) l /\
  separation_ok (wavevec (optics target)) l.

(* the calculation from the reconstructed fields on, as _calc_field
   continues after tmatrix_fields *)
Definition after_fields (l : list Sphere) (target : Target)
    (fields : Fields) : M (list cvec3) :=
  bind (first_value fields) (fun v =>
  bind (emit (Ev_isnan_field v)) (fun _ =>
  if cisnan v
  then raise (MultisphereFieldNaN self (SphereCluster l) "")
  else
    if feq (med_wavelen (optics target)) (of_int 0)
    then raise ZeroDivisionError
    else
      let phase := phase_factor ext l target in
      bind (vstack_T fields) (fun stacked =>
      ret (scale (from_1d target stacked) phase)))).

(* what the solver's result is truncated to, and what is handed on *)
Definition limit_of (res : AmncalcResult) : Z :=
  (lmax res ^ 2 + 2 * lmax res)%Z.
Definition amn_of (res : AmncalcResult) : array3 :=
  slice_axis1 (limit_of res) (amn0 res).
Definition tmatrix_args (l : list Sphere) (target : Target)
    (res : AmncalcResult) : TmatrixArgs :=
  {| t_kr_theta_phi :=
       transpose (positions_kr_theta_phi target (mean0 (centers l)));
     t_amn := amn_of res;
     t_lmax := lmax res;
     t_flag := 0;
     t_polarization := polarization (optics target) |}.

(* the calculation from the solver's result on, as _calc_field continues
   after amncalc *)
Definition after_solver (l : list Sphere) (target : Target)
    (res : AmncalcResult) : M (list cvec3) :=
  if (converged res =? 0)%Z
  then raise ConvergenceFailureMultisphere
  else
    bind (emit (Ev_truncate (limit_of res))) (fun _ =>
    bind (emit (Ev_isnan_amn (amn_of res))) (fun _ =>
    if any_isnan (amn_of res)
    then raise MultisphereExpansionNaN
    else
      bind (emit (Ev_tmatrix_fields (tmatrix_args l target res))) (fun _ =>
      after_fields l target
        (tmatrix_fields ext (tmatrix_args l target res))))).

Lemma bind_ret {A B : Type} (a : A) (f : A -> M B) : bind (ret a) f = f a.
Proof. unfold bind, ret. destruct (f a). reflexivity. Qed.

Lemma bind_raise {A B : Type} (e : Exception) (f : A -> M B) :
  bind (raise e) f = raise e.
Proof. reflexivity. Qed.

Lemma bind_emit {B : Type} (ev : Event) (f : unit -> M B) :
  bind (emit ev) f = (ev :: trace (f tt), outcome (f tt)).
Proof. unfold bind, emit. destruct (f tt). reflexivity. Qed.

Lemma check_radii_trace (k : float) (l : list Sphere) :
  trace (check_radii self k l) = [].
Proof.
  induction l as [|s l IH]; simpl; [reflexivity|].
  destruct (fgt (fmul (r s) k) (of_int 1000)); [reflexivity|exact IH].
Qed.

Lemma check_radii_ok (k : float) (l : list Sphere) :
  radii_ok k l -> check_radii self k l = ret tt.
Proof.
  induction l as [|s l IH]; intros H; simpl; [reflexivity|].
  rewrite (H s (or_introl eq_refl)).
  apply IH. intros s' Hs'. apply H. right. exact Hs'.
Qed.

(* the loop stops at the first sphere that is too large *)
Lemma check_radii_first (k : float) (l1 l2 : list Sphere) (s : Sphere) :
  radii_ok k l1 ->
  fgt (fmul (r s) k) (of_int 1000) = true ->
  check_radii self k (l1 ++ s :: l2)
  = raise (UnrealizableScatterer self (inl s) radius_message).
Proof.
  induction l1 as [|a l1 IH]; intros Hok Hs; simpl.
  - rewrite Hs. reflexivity.
  - rewrite (Hok a (or_introl eq_refl)).
    apply IH; [|exact Hs]. intros s' Hs'. apply Hok. right. exact Hs'.
Qed.

(* a list with an oversized sphere splits at the first one *)
Lemma first_oversized (k : float) (l : list Sphere) (s : Sphere) :
  In s l -> fgt (fmul (r s) k) (of_int 1000) = true ->
  exists l1 s' l2,
    l = l1 ++ s' :: l2 /\ radii_ok k l1 /\
    fgt (fmul (r s') k) (of_int 1000) = true.
Proof.
  induction l as [|a l IH]; intros Hin Hs; [contradiction|].
  destruct (fgt (fmul (r a) k) (of_int 1000)) eqn:Ha.
  - exists [], a, l. repeat split; [|exact Ha]. intros x [].
  - destruct Hin as [->|Hin]; [congruence|].
    destruct (IH Hin Hs) as (l1 & s' & l2 & -> & Hok & Hs').
    exists (a :: l1), s', l2. repeat split; [|exact Hs'].
    intros x [<-|Hx]; [exact Ha|apply Hok; exact Hx].
Qed.

(* the run of a cluster that passes the guards: the solver call, then the
   rest of the calculation on the solver's result *)
Lemma calc_field_guards_pass (l : list Sphere) (target : Target) :
  guards_pass l target ->
  _calc_field ext self (SphereCluster l) target
  = bind (emit (Ev_amncalc (amncalc_args self l target)))
         (fun _ => after_solver l target
                     (amncalc ext (amncalc_args self l target))).
Proof.
  intros [Hr Hs]. unfold _calc_field.
  rewrite (check_radii_ok _ _ Hr), bind_ret. unfold separation_ok in Hs.
  rewrite Hs. reflexivity.
Qed.

Lemma calc_field_radius_fail (l1 l2 : list Sphere) (s : Sphere)
    (target : Target) :
  radii_ok (wavevec (optics target)) l1 ->
  fgt (fmul (r s) (wavevec (optics target))) (of_int 1000) = true ->
  _calc_field ext self (SphereCluster (l1 ++ s :: l2)) target
  = raise (UnrealizableScatterer self (inl s) radius_message).
Proof.
  intros Hok Hs. unfold _calc_field.
  rewrite (check_radii_first _ l1 l2 s Hok Hs). reflexivity.
Qed.

Lemma calc_field_separation_fail (l : list Sphere) (target : Target) :
  radii_ok (wavevec (optics target)) l ->
  any_gt (nondim_centers l (wavevec (optics target))) (of_int 10000) = true ->
  _calc_field ext self (SphereCluster l) target
  = raise (UnrealizableScatterer self (inr (SphereCluster l))
             separation_message).
Proof.
  intros Hr Hs. unfold _calc_field.
  rewrite (check_radii_ok _ _ Hr), bind_ret, Hs. reflexivity.
Qed.

(** *** The stages after the solver *)

Lemma after_fields_empty (l : list Sphere) (target : Target)
    (fy fz : list complex) :
  after_fields l target ([], fy, fz) = raise IndexError.
Proof. reflexivity. Qed.

Lemma after_fields_nan (l : list Sphere) (target : Target) (v : complex)
    (fx fy fz : list complex) :
  cisnan v = true ->
  after_fields l target (v :: fx, fy, fz)
  = ([Ev_isnan_field v], inl (MultisphereFieldNaN self (SphereCluster l) "")).
Proof.
  intros Hv. unfold after_fields. cbn [first_value].
  rewrite bind_ret, bind_emit, Hv. reflexivity.
Qed.

Lemma after_fields_finite (l : list Sphere) (target : Target) (v : complex)
    (fx fy fz : list complex) :
  cisnan v = false ->
  after_fields l target (v :: fx, fy, fz)
  = ([Ev_isnan_field v],
     if feq (med_wavelen (optics target)) (of_int 0)
     then inl ZeroDivisionError
     else
       match zip3 (v :: fx) fy fz with
       | Some stacked =>
           inr (scale (from_1d target stacked) (phase_factor ext l target))
       | None => inl ValueError
       end).
Proof.
  intros Hv. unfold after_fields. cbn [first_value].
  rewrite bind_ret, bind_emit, Hv. unfold vstack_T.
  destruct (feq (med_wavelen (optics target)) (of_int 0)); [reflexivity|].
  destruct (zip3 (v :: fx) fy fz); reflexivity.
Qed.

(* the steps after tmatrix_fields: nothing, or the one NaN test *)
Lemma after_fields_trace (l : list Sphere) (target : Target) (f : Fields) :
  trace (after_fields l target f) = [] \/
  exists v, trace (after_fields l target f) = [Ev_isnan_field v].
Proof.
  destruct f as [[[|v fx] fy] fz].
  - left. reflexivity.
  - right. exists v. destruct (cisnan v) eqn:Hv.
    + rewrite (after_fields_nan _ _ _ _ _ _ Hv). reflexivity.
    + rewrite (after_fields_finite _ _ _ _ _ _ Hv). reflexivity.
Qed.

Lemma after_fields_outcome (l : list Sphere) (target : Target) (f : Fields) :
  let out := outcome (after_fields l target f) in
  out = inl IndexError \/
  out = inl (MultisphereFieldNaN self (SphereCluster l) "") \/
  out = inl ValueError \/
  out = inl ZeroDivisionError \/
  exists res, out = inr res.
Proof.
  destruct f as [[[|v fx] fy] fz]; cbv zeta.
  - left. reflexivity.
  - destruct (cisnan v) eqn:Hv.
    + rewrite (after_fields_nan _ _ _ _ _ _ Hv). right. left. reflexivity.
    + rewrite (after_fields_finite _ _ _ _ _ _ Hv). cbn [outcome snd].
      destruct (feq (med_wavelen (optics target)) (of_int 0)).
      { right. right. right. left. reflexivity. }
      destruct (zip3 (v :: fx) fy fz).
      * right. right. right. right. eexists. reflexivity.
      * right. right. left. reflexivity.
Qed.

Lemma after_solver_unconverged (l : list Sphere) (target : Target)
    (res : AmncalcResult) :
  converged res = 0%Z ->
  after_solver l target res = raise ConvergenceFailureMultisphere.
Proof. intros H. unfold after_solver. rewrite H. reflexivity. Qed.

Lemma after_solver_nan (l : list Sphere) (target : Target)
    (res : AmncalcResult) :
  converged res <> 0%Z ->
  any_isnan (amn_of res) = true ->
  after_solver l target res
  = ([Ev_truncate (limit_of res); Ev_isnan_amn (amn_of res)],
     inl MultisphereExpansionNaN).
Proof.
  intros Hc Hn. unfold after_solver.
  apply Z.eqb_neq in Hc. rewrite Hc, !bind_emit, Hn. reflexivity.
Qed.

Lemma after_solver_screened (l : list Sphere) (target : Target)
    (res : AmncalcResult) :
  converged res <> 0%Z ->
  any_isnan (amn_of res) = false ->
  after_solver l target res
  = (Ev_truncate (limit_of res) :: Ev_isnan_amn (amn_of res)
       :: Ev_tmatrix_fields (tmatrix_args l target res)
       :: trace (after_fields l target
                   (tmatrix_fields ext (tmatrix_args l target res))),
     outcome (after_fields l target
                (tmatrix_fields ext (tmatrix_args l target res)))).
Proof.
  intros Hc Hn. unfold after_solver.
  apply Z.eqb_neq in Hc. rewrite Hc, !bind_emit. cbv beta.
  rewrite Hn. reflexivity.
Qed.

(* the solver is not called again after it has returned *)
Lemma after_solver_no_amncalc (l : list Sphere) (target : Target)
    (res : AmncalcResult) (a : AmncalcArgs) :
  ~ In (Ev_amncalc a) (trace (after_solver l target res)).
Proof.
  destruct (Z.eq_dec (converged res) 0) as [Hc|Hc].
  - rewrite (after_solver_unconverged _ _ _ Hc). intros [].
  - destruct (any_isnan (amn_of res)) eqn:Hn.
    + rewrite (after_solver_nan _ _ _ Hc Hn). cbn.
      intros [H|[H|[]]]; discriminate.
    + rewrite (after_solver_screened _ _ _ Hc Hn). cbn.
      destruct (after_fields_trace l target
                  (tmatrix_fields ext (tmatrix_args l target res)))
        as [->|[v ->]]; cbn; intuition discriminate.
Qed.

(** *** How a run can end *)

Lemma check_radii_cases (k : float) (l : list Sphere) :
  radii_ok k l \/
  exists l1 s l2, l = l1 ++ s :: l2 /\ radii_ok k l1 /\
                  fgt (fmul (r s) k) (of_int 1000) = true.
Proof.
  induction l as [|a l IH].
  - left. intros s [].
  - destruct (fgt (fmul (r a) k) (of_int 1000)) eqn:Ha.
    + right. exists [], a, l. repeat split; [|exact Ha]. intros x [].
    + destruct IH as [IH|(l1 & s & l2 & -> & Hok & Hs)].
      * left. intros x [<-|Hx]; [exact Ha|apply IH; exact Hx].
      * right. exists (a :: l1), s, l2. repeat split; [|exact Hs].
        intros x [<-|Hx]; [exact Ha|apply Hok; exact Hx].
Qed.

(* a cluster passes both guards, or the run ends in a guard's error before
   anything is recorded *)
Lemma guards_cases (l : list Sphere) (target : Target) :
  guards_pass l target \/
  (exists l1 s l2, l = l1 ++ s :: l2 /\
     radii_ok (wavevec (optics target)) l1 /\
     fgt (fmul (r s) (wavevec (optics target))) (of_int 1000) = true /\
     _calc_field ext self (SphereCluster l) target
     = raise (UnrealizableScatterer self (inl s) radius_message)) \/
  (radii_ok (wavevec (optics target)) l /\
   _calc_field ext self (SphereCluster l) target
   = raise (UnrealizableScatterer self (inr (SphereCluster l))
              separation_message)).
Proof.
  destruct (check_radii_cases (wavevec (optics target)) l)
    as [Hr|(l1 & s & l2 & -> & Hok & Hs)].
  - destruct (any_gt (nondim_centers l (wavevec (optics target)))
                (of_int 10000)) eqn:Hsep.
    + right. right. split; [exact Hr|].
      apply calc_field_separation_fail; assumption.
    + left. split; assumption.
  - right. left. exists l1, s, l2. repeat split; try assumption.
    apply calc_field_radius_fail; assumption.
Qed.

(* a run that recorded the solver call passed the guards, and the call was
   made on the arguments _calc_field builds *)
Lemma solver_invoked (sc : Scatterer) (target : Target) (a : AmncalcArgs)
    (rest : list Event) :
  trace (_calc_field ext self sc target) = Ev_amncalc a :: rest ->
  exists l, sc = SphereCluster l /\ guards_pass l target /\
            a = amncalc_args self l target /\
            rest = trace (after_solver l target (amncalc ext a)) /\
            outcome (_calc_field ext self sc target)
            = outcome (after_solver l target (amncalc ext a)).
Proof.
  destruct sc as [s|l]; [discriminate|]. intros H.
  destruct (guards_cases l target)
    as [Hg|[(l1 & s & l2 & _ & _ & _ & E)|[_ E]]];
    try (rewrite E in H; discriminate).
  exists l. rewrite (calc_field_guards_pass _ _ Hg), bind_emit in H |- *.
  cbn [trace outcome fst snd] in H |- *. injection H as <- <-.
  split; [reflexivity|]. split; [exact Hg|]. repeat split.
Qed.


Lemma after_solver_outcome (l : list Sphere) (target : Target)
    (res : AmncalcResult) :
  let out := outcome (after_solver l target res) in
  out = inl ConvergenceFailureMultisphere \/
  out = inl MultisphereExpansionNaN \/
  out = inl IndexError \/
  out = inl (MultisphereFieldNaN self (SphereCluster l) "") \/
  out = inl ValueError \/
  out = inl ZeroDivisionError \/
  exists v, out = inr v.
Proof.
  cbv zeta. destruct (Z.eq_dec (converged res) 0) as [Hc|Hc].
  - rewrite (after_solver_unconverged _ _ _ Hc). left. reflexivity.
  - destruct (any_isnan (amn_of res)) eqn:Hn.
    + rewrite (after_solver_nan _ _ _ Hc Hn). right. left. reflexivity.
    + rewrite (after_solver_screened _ _ _ Hc Hn). cbn [outcome snd].
      right. right.
      exact (after_fields_outcome l target
               (tmatrix_fields ext (tmatrix_args l target res))).
Qed.

(* the errors and results a run on a cluster can end in *)
Lemma cluster_outcome (l : list Sphere) (target : Target) :
  let out := outcome (_calc_field ext self (SphereCluster l) target) in
  (exists s, In s l /\
     fgt (fmul (r s) (wavevec (optics target))) (of_int 1000) = true /\
     out = inl (UnrealizableScatterer self (inl s) radius_message)) \/
  out = inl (UnrealizableScatterer self (inr (SphereCluster l))
               separation_message) \/
  out = inl ConvergenceFailureMultisphere \/
  out = inl MultisphereExpansionNaN \/
  out = inl IndexError \/
  out = inl (MultisphereFieldNaN self (SphereCluster l) "") \/
  out = inl ValueError \/
  out = inl ZeroDivisionError \/
  exists v, out = inr v.
Proof.
  cbv zeta.
  destruct (guards_cases l target)
    as [Hg|[(l1 & s & l2 & El & _ & Hs & E)|[_ E]]].
  - rewrite (calc_field_guards_pass _ _ Hg), bind_emit. cbn [outcome snd].
    right. right.
    exact (after_solver_outcome l target
             (amncalc ext (amncalc_args self l target))).
  - left. exists s. rewrite E, El. repeat split; [|exact Hs].
    apply in_or_app. right. left. reflexivity.
  - right. left. rewrite E. reflexivity.
Qed.

(** *** The scatterer type *)

(* isinstance(scatterer, SphereCluster) *)
Definition is_SphereCluster (sc : Scatterer) : bool :=
  match sc with
  | SphereCluster _ => true
  | SingleSphere _ => false
  end.

(** C9.  A scatterer that is not a SphereCluster ends the calculation in
    TheoryNotCompatibleError carrying the theory and the scatterer, with
    nothing recorded before it: no guard, no transform, no solver call, and
    whatever the target and the sphere are; a SphereCluster never ends in
    that error. *)
Theorem incompatible_iff_not_cluster (sc : Scatterer) (target : Target) :
  if is_SphereCluster sc
  then forall theory sc',
         outcome (_calc_field ext self sc target)
         <> inl (TheoryNotCompatibleError theory sc')
  else _calc_field ext self sc target
       = ([], inl (TheoryNotCompatibleError self sc)).
Proof.
  destruct sc as [s|l]; cbn [is_SphereCluster]; [reflexivity|].
  intros theory sc'.
  destruct (cluster_outcome l target)
    as [(s & _ & _ & E)|[E|[E|[E|[E|[E|[E|[E|[v E]]]]]]]]];
    rewrite E; discriminate.
Qed.

(** *** The radius guard *)

(** C7.  If some sphere of the cluster has r * wavevec > 1e3, the
    calculation ends in the radius-too-large UnrealizableScatterer error
    naming a sphere with r * wavevec > 1e3 (the first one in the cluster's
    order), and its trace is empty: the solver is not invoked.  If every
    sphere has r * wavevec <= 1e3, the calculation does not end in the
    radius-too-large error. *)
Theorem radius_guard (l : list Sphere) (target : Target) :
  (forall s, In s l ->
     fgt (fmul (r s) (wavevec (optics target))) (of_int 1000) = true ->
     exists l1 s' l2,
       l = l1 ++ s' :: l2 /\
       radii_ok (wavevec (optics target)) l1 /\
       fgt (fmul (r s') (wavevec (optics target))) (of_int 1000) = true /\
       _calc_field ext self (SphereCluster l) target
       = ([], inl (UnrealizableScatterer self (inl s') radius_message)))
  /\
  ((forall s, In s l ->
      fle (fmul (r s) (wavevec (optics target))) (of_int 1000) = true) ->
   forall theory who,
     outcome (_calc_field ext self (SphereCluster l) target)
     <> inl (UnrealizableScatterer theory who radius_message)).
Proof.
  split.
  - intros s Hin Hs.
    destruct (first_oversized _ l s Hin Hs) as (l1 & s' & l2 & -> & Hok & Hs').
    exists l1, s', l2. repeat split; try assumption.
    apply calc_field_radius_fail; assumption.
  - intros Hle theory who.
    destruct (cluster_outcome l target)
      as [(s & Hin & Hs & _)|[E|[E|[E|[E|[E|[E|[E|[v E]]]]]]]]];
      try (rewrite E; discriminate).
    rewrite (fle_not_fgt _ _ (Hle s Hin)) in Hs. discriminate.
Qed.

(** *** The inputs of the solver *)

Definition vx (v : vec3) : float := fst (fst v).
Definition vy (v : vec3) : float := snd (fst v).
Definition vz (v : vec3) : float := snd v.

(* the centroid: the mean of the centres *)
Definition centroid (l : list Sphere) : vec3 := mean0 (centers l).

(** The inputs as the spec words them (4.2), sphere by sphere: the position
    relative to the centroid (the mean of the centres) scaled by the
    wavevector, the third coordinate multiplied by -1 in addition; the ratio
    of the sphere's index to the medium's, by parts; the radius scaled by
    the wavevector. *)

(* the values added up, the first one first *)
Fixpoint running_total (acc : float) (l : list float) : float :=
  match l with
  | [] => acc
  | x :: t => running_total (fadd acc x) t
  end.

(* the mean of the values: their total divided by their number *)
Definition mean_of (l : list float) : float :=
  fdiv (match l with
        | [] => of_int 0
        | x :: t => running_total x t
        end)
       (of_int (Z.of_nat (length l))).

(* the mean of the centres, coordinate by coordinate *)
Definition spec_centroid (l : list Sphere) : vec3 :=
  (mean_of (map (fun s => vx (center s)) l),
   mean_of (map (fun s => vy (center s)) l),
   mean_of (map (fun s => vz (center s)) l)).

Definition spec_x (k : float) (l : list Sphere) : list float :=
  map (fun s => fmul (fsub (vx (center s)) (vx (spec_centroid l))) k) l.
Definition spec_y (k : float) (l : list Sphere) : list float :=
  map (fun s => fmul (fsub (vy (center s)) (vy (spec_centroid l))) k) l.
Definition spec_z (k : float) (l : list Sphere) : list float :=
  map (fun s => fmul (fneg (of_int 1))
                     (fmul (fsub (vz (center s)) (vz (spec_centroid l))) k)) l.

(* every index of the cluster is a float: the ratio is then a quotient of
   floats with no imaginary part; otherwise all indices are complex, the
   floats among them with imaginary part 0 *)
Definition all_floats (l : list Sphere) : bool :=
  forallb (fun s => is_float (n s)) l.
Definition spec_m_real (l : list Sphere) (medium : float) (s : Sphere)
  : float :=
  if all_floats l
  then fdiv (as_float (n s)) medium
  else real (cdiv (as_complex (n s)) (of_float medium)).
Definition spec_m_imag (l : list Sphere) (medium : float) (s : Sphere)
  : float :=
  if all_floats l
  then of_int 0
  else imag (cdiv (as_complex (n s)) (of_float medium)).
Definition spec_radii (k : float) (l : list Sphere) : list float :=
  map (fun s => fmul (r s) k) l.

Lemma running_total_fold (l : list float) (acc : float) :
  running_total acc l = fold_left fadd l acc.
Proof.
  revert acc. induction l as [|x t IH]; intros acc; [reflexivity|].
  cbn [running_total fold_left]. apply IH.
Qed.

Lemma mean_of_np_mean (l : list float) : mean_of l = np_mean l.
Proof.
  unfold mean_of, np_mean, np_sum. destruct l as [|x t]; [reflexivity|].
  rewrite running_total_fold. reflexivity.
Qed.

(* the code's centroid, centers.mean(0), is the mean of the centres *)
Lemma spec_centroid_mean0 (l : list Sphere) :
  spec_centroid l = mean0 (centers l).
Proof.
  unfold spec_centroid, mean0, col0, col1, col2, centers, vx, vy, vz.
  rewrite !mean_of_np_mean, !map_map. reflexivity.
Qed.

Lemma forallb_indices (l : list Sphere) :
  forallb is_float (map n l) = all_floats l.
Proof.
  unfold all_floats. induction l as [|s l IH]; [reflexivity|].
  cbn [map forallb]. rewrite IH. reflexivity.
Qed.

Lemma relative_index_parts (l : list Sphere) (medium : float) :
  array_real (relative_index l medium) = map (spec_m_real l medium) l /\
  array_imag (relative_index l medium) = map (spec_m_imag l medium) l.
Proof.
  unfold relative_index, indices, np_array, spec_m_real, spec_m_imag.
  rewrite forallb_indices.
  destruct (all_floats l);
    cbn [divide array_real array_imag]; rewrite !map_map; split; reflexivity.
Qed.

Lemma amncalc_args_spec (l : list Sphere) (target : Target) :
  let a := amncalc_args self l target in
  let k := wavevec (optics target) in
  a_x a = spec_x k l /\ a_y a = spec_y k l /\ a_z a = spec_z k l /\
  a_mreal a = map (spec_m_real l (index (optics target))) l /\
  a_mimag a = map (spec_m_imag l (index (optics target))) l /\
  a_radii a = spec_radii k l.
Proof.
  cbv zeta. unfold amncalc_args. cbn [a_x a_y a_z a_mreal a_mimag a_radii].
  destruct (relative_index_parts l (index (optics target))) as [-> ->].
  unfold spec_x, spec_y, spec_z, spec_radii.
  rewrite spec_centroid_mean0.
  unfold nondim_centers, col0, col1, col2, mul_scalar2, sub_row, centers,
    radii, vx, vy, vz.
  generalize (mean0 (map center l)). intros [[cx cy] cz].
  rewrite !map_map. repeat split; apply map_ext; intros s;
    try reflexivity; destruct (center s) as [[x y] z]; reflexivity.
Qed.

(** C1.  For a cluster that passes the validity guards the run starts with
    the one call of the solver, on exactly these inputs: the positions
    relative to the centroid, the mean of the centres, times the
    wavevector, z multiplied by -1 in addition; the real and the imaginary
    parts of index / medium index; the radii times the wavevector. *)
Theorem solver_inputs (l : list Sphere) (target : Target) :
  guards_pass l target ->
  exists a rest,
    trace (_calc_field ext self (SphereCluster l) target)
    = Ev_amncalc a :: rest /\
    (forall a', ~ In (Ev_amncalc a') rest) /\
    a_x a = spec_x (wavevec (optics target)) l /\
    a_y a = spec_y (wavevec (optics target)) l /\
    a_z a = spec_z (wavevec (optics target)) l /\
    a_mreal a = map (spec_m_real l (index (optics target))) l /\
    a_mimag a = map (spec_m_imag l (index (optics target))) l /\
    a_radii a = spec_radii (wavevec (optics target)) l.
Proof.
  intros Hg. exists (amncalc_args self l target).
  exists (trace (after_solver l target
                   (amncalc ext (amncalc_args self l target)))).
  rewrite (calc_field_guards_pass _ _ Hg), bind_emit.
  split; [reflexivity|]. split.
  - intros a'. apply after_solver_no_amncalc.
  - exact (amncalc_args_spec l target).
Qed.

(** *** Convergence *)

(** C3.  Whenever the solver was invoked and its convergence indicator is
    0, the calculation ends in ConvergenceFailureMultisphere and the solver
    call is the only step recorded: no truncation, no NaN screen of the
    coefficients, no field reconstruction. *)
Theorem convergence_failure (sc : Scatterer) (target : Target)
    (a : AmncalcArgs) (rest : list Event) :
  trace (_calc_field ext self sc target) = Ev_amncalc a :: rest ->
  converged (amncalc ext a) = 0%Z ->
  _calc_field ext self sc target
  = ([Ev_amncalc a], inl ConvergenceFailureMultisphere).
Proof.
  intros H Hc.
  destruct (solver_invoked sc target a rest H) as (l & -> & Hg & -> & _ & _).
  rewrite (calc_field_guards_pass _ _ Hg), bind_emit.
  rewrite (after_solver_unconverged _ _ _ Hc). reflexivity.
Qed.


(** *** The NaN screens *)

(* some entry of the array has a NaN real or imaginary part *)
Definition has_nan (a : array3) : Prop :=
  exists plane row c,
    In plane a /\ In row plane /\ In c row /\
    (fisnan (real c) = true \/ fisnan (imag c) = true).

Lemma any_isnan_iff (a : array3) : any_isnan a = true <-> has_nan a.
Proof.
  unfold any_isnan, has_nan. rewrite existsb_exists. split.
  - intros (plane & Hp & H). apply existsb_exists in H.
    destruct H as (row & Hr & H). apply existsb_exists in H.
    destruct H as (c & Hc & H). apply orb_true_iff in H.
    exists plane, row, c. auto.
  - intros (plane & row & c & Hp & Hr & Hc & H).
    exists plane. split; [exact Hp|]. apply existsb_exists.
    exists row. split; [exact Hr|]. apply existsb_exists.
    exists c. split; [exact Hc|]. apply orb_true_iff. exact H.
Qed.

(** C5, as the code has it.  For a converged solver result: if some entry
    of the truncated coefficient array is NaN in its real or imaginary part,
    the calculation ends in MultisphereExpansionNaN right after the screen,
    with no field reconstruction; if no entry of the truncated array is NaN,
    the calculation does not end in that error. *)
Theorem expansion_nan (sc : Scatterer) (target : Target)
    (a : AmncalcArgs) (rest : list Event) :
  trace (_calc_field ext self sc target) = Ev_amncalc a :: rest ->
  converged (amncalc ext a) <> 0%Z ->
  (has_nan (amn_of (amncalc ext a)) ->
   _calc_field ext self sc target
   = ([Ev_amncalc a; Ev_truncate (limit_of (amncalc ext a));
       Ev_isnan_amn (amn_of (amncalc ext a))],
      inl MultisphereExpansionNaN))
  /\
  (~ has_nan (amn_of (amncalc ext a)) ->
   outcome (_calc_field ext self sc target) <> inl MultisphereExpansionNaN).
Proof.
  intros H Hc.
  destruct (solver_invoked sc target a rest H) as (l & -> & Hg & -> & _ & _).
  rewrite (calc_field_guards_pass _ _ Hg), bind_emit.
  set (res := amncalc ext (amncalc_args self l target)) in *.
  split.
  - intros Hn. apply any_isnan_iff in Hn.
    rewrite (after_solver_nan _ _ _ Hc Hn). reflexivity.
  - intros Hn. destruct (any_isnan (amn_of res)) eqn:E.
    + exfalso. apply Hn. apply any_isnan_iff. exact E.
    + rewrite (after_solver_screened _ _ _ Hc E). cbn [outcome snd].
      destruct (after_fields_outcome l target
                  (tmatrix_fields ext (tmatrix_args l target res)))
        as [E'|[E'|[E'|[E'|[v E']]]]]; rewrite E'; discriminate.
Qed.

(** C6, as the code has it.  When the coefficients passed their screen and
    the fields were reconstructed: if the first value of the first field
    component is NaN (in its real or imaginary part), the calculation ends
    in MultisphereFieldNaN naming the theory and the scatterer; the test
    comes after the coefficient screen and the reconstruction, and the error
    is another one than MultisphereExpansionNaN. *)
Theorem field_nan (l : list Sphere) (target : Target)
    (v : complex) (fx fy fz : list complex) :
  guards_pass l target ->
  converged (amncalc ext (amncalc_args self l target)) <> 0%Z ->
  any_isnan (amn_of (amncalc ext (amncalc_args self l target))) = false ->
  tmatrix_fields ext
    (tmatrix_args l target (amncalc ext (amncalc_args self l target)))
  = (v :: fx, fy, fz) ->
  cisnan v = true ->
  _calc_field ext self (SphereCluster l) target
  = ([Ev_amncalc (amncalc_args self l target);
      Ev_truncate (limit_of (amncalc ext (amncalc_args self l target)));
      Ev_isnan_amn (amn_of (amncalc ext (amncalc_args self l target)));
      Ev_tmatrix_fields
        (tmatrix_args l target (amncalc ext (amncalc_args self l target)));
      Ev_isnan_field v],
     inl (MultisphereFieldNaN self (SphereCluster l) ""))
  /\
  MultisphereFieldNaN self (SphereCluster l) "" <> MultisphereExpansionNaN.
Proof.
  intros Hg Hc Hn Hf Hv.
  rewrite (calc_field_guards_pass _ _ Hg), bind_emit.
  rewrite (after_solver_screened _ _ _ Hc Hn), Hf.
  rewrite (after_fields_nan _ _ _ _ _ _ Hv).
  split; [reflexivity|discriminate].
Qed.

(** *** Successful runs *)

(* what a run that returns a result went through, and what it returns: the
   reconstructed fields, stacked and mapped onto the target, times the
   phase factor *)
Lemma success_inversion (l : list Sphere) (target : Target)
    (res : list cvec3) :
  outcome (_calc_field ext self (SphereCluster l) target) = inr res ->
  guards_pass l target /\
  converged (amncalc ext (amncalc_args self l target)) <> 0%Z /\
  any_isnan (amn_of (amncalc ext (amncalc_args self l target))) = false /\
  exists v fx fy fz stacked,
    tmatrix_fields ext
      (tmatrix_args l target (amncalc ext (amncalc_args self l target)))
    = (v :: fx, fy, fz) /\
    cisnan v = false /\
    feq (med_wavelen (optics target)) (of_int 0) = false /\
    zip3 (v :: fx) fy fz = Some stacked /\
    res = scale (from_1d target stacked) (phase_factor ext l target).
Proof.
  intros H.
  destruct (guards_cases l target)
    as [Hg|[(l1 & s & l2 & _ & _ & _ & E)|[_ E]]];
    try (rewrite E in H; discriminate).
  split; [exact Hg|].
  rewrite (calc_field_guards_pass _ _ Hg), bind_emit in H.
  cbn [outcome snd] in H.
  set (r0 := amncalc ext (amncalc_args self l target)) in *.
  destruct (Z.eq_dec (converged r0) 0) as [Hc|Hc].
  { rewrite (after_solver_unconverged _ _ _ Hc) in H. discriminate. }
  split; [exact Hc|].
  destruct (any_isnan (amn_of r0)) eqn:Hn.
  { rewrite (after_solver_nan _ _ _ Hc Hn) in H. discriminate. }
  split; [reflexivity|].
  rewrite (after_solver_screened _ _ _ Hc Hn) in H. cbn [outcome snd] in H.
  destruct (tmatrix_fields ext (tmatrix_args l target r0))
    as [[[|v fx] fy] fz] eqn:Hf.
  { discriminate. }
  destruct (cisnan v) eqn:Hv.
  { rewrite (after_fields_nan _ _ _ _ _ _ Hv) in H. discriminate. }
  rewrite (after_fields_finite _ _ _ _ _ _ Hv) in H. cbn [outcome snd] in H.
  destruct (feq (med_wavelen (optics target)) (of_int 0)) eqn:Hw;
    [discriminate|].
  destruct (zip3 (v :: fx) fy fz) as [stacked|] eqn:Hz; [|discriminate].
  exists v, fx, fy, fz, stacked. injection H as <-.
  split; [|split; [|split; [|split]]]; try reflexivity; assumption.
Qed.

Lemma success_construction (l : list Sphere) (target : Target)
    (v : complex) (fx fy fz : list complex) (stacked : list cvec3) :
  guards_pass l target ->
  converged (amncalc ext (amncalc_args self l target)) <> 0%Z ->
  any_isnan (amn_of (amncalc ext (amncalc_args self l target))) = false ->
  tmatrix_fields ext
    (tmatrix_args l target (amncalc ext (amncalc_args self l target)))
  = (v :: fx, fy, fz) ->
  cisnan v = false ->
  feq (med_wavelen (optics target)) (of_int 0) = false ->
  zip3 (v :: fx) fy fz = Some stacked ->
  outcome (_calc_field ext self (SphereCluster l) target)
  = inr (scale (from_1d target stacked) (phase_factor ext l target)).
Proof.
  intros Hg Hc Hn Hf Hv Hw Hz.
  rewrite (calc_field_guards_pass _ _ Hg), bind_emit.
  rewrite (after_solver_screened _ _ _ Hc Hn), Hf.
  rewrite (after_fields_finite _ _ _ _ _ _ Hv), Hw, Hz. reflexivity.
Qed.

End Properties.

(** ** Truncation of the coefficients *)

Section Truncation.

Context {NP : NumPy}.

Lemma slice0_firstn {A : Type} (stop : Z) (l : list A) :
  (0 <= stop)%Z -> slice0 stop l = firstn (Z.to_nat stop) l.
Proof.
  intros H. unfold slice0.
  destruct (stop <? 0)%Z eqn:E; [apply Z.ltb_lt in E; lia|].
  destruct (Z.le_ge_cases stop (Z.of_nat (length l))) as [Hle|Hge].
  - rewrite Z.min_l by exact Hle. reflexivity.
  - rewrite Z.min_r by exact Hge. rewrite Nat2Z.id.
    rewrite firstn_all. symmetry. apply firstn_all2. lia.
Qed.

Lemma slice0_length {A : Type} (stop : Z) (l : list A) :
  (0 <= stop)%Z -> (stop <= Z.of_nat (length l))%Z ->
  Z.of_nat (length (slice0 stop l)) = stop.
Proof.
  intros H0 H1. rewrite (slice0_firstn stop l H0).
  rewrite length_firstn. lia.
Qed.

Lemma limit_of_nonneg (res : AmncalcResult) :
  (0 <= lmax res)%Z -> (0 <= limit_of res)%Z.
Proof. unfold limit_of. nia. Qed.

(* two raw arrays with the same entries below the limit on axis 1 *)
Definition agree_below (limit : Z) (raw raw' : array3) : Prop :=
  Forall2 (fun p p' => firstn (Z.to_nat limit) p = firstn (Z.to_nat limit) p')
          raw raw'.

Lemma slice_axis1_agree (limit : Z) (raw raw' : array3) :
  (0 <= limit)%Z -> agree_below limit raw raw' ->
  slice_axis1 limit raw = slice_axis1 limit raw'.
Proof.
  intros H0 H. unfold slice_axis1.
  induction H as [|p p' raw raw' Hp _ IH]; [reflexivity|].
  cbn [map]. rewrite IH, !slice0_firstn, Hp by exact H0. reflexivity.
Qed.

(* the externals with another solver in place of amncalc *)
Definition with_amncalc (ext : Externals)
    (amncalc' : AmncalcArgs -> AmncalcResult) : Externals :=
  {| amncalc := amncalc';
     tmatrix_fields := tmatrix_fields ext;
     np_exp := np_exp ext |}.

Lemma after_solver_agree (ext : Externals)
    (amncalc' : AmncalcArgs -> AmncalcResult) (self : Multisphere)
    (l : list Sphere) (target : Target) (res res' : AmncalcResult) :
  lmax res' = lmax res ->
  converged res' = converged res ->
  amn_of res' = amn_of res ->
  after_solver (with_amncalc ext amncalc') self l target res'
  = after_solver ext self l target res.
Proof.
  intros Hl Hc Ha.
  unfold after_solver, after_fields, tmatrix_args, phase_factor, limit_of.
  unfold limit_of in Ha. cbn [with_amncalc tmatrix_fields np_exp].
  rewrite Hc, Hl, Ha. reflexivity.
Qed.

(** C2.  For a converged solver result of order lmax >= 0 whose raw array
    has at least lmax^2 + 2*lmax entries along axis 1: the array handed on
    keeps, in every plane, exactly the entries 0 .. lmax^2 + 2*lmax - 1; the
    NaN screen and the field reconstruction are made on that truncated
    array; and the run does not depend on the raw entries at or beyond that
    index: a solver whose raw array differs from this one only there gives
    the same trace and the same outcome. *)
Theorem truncation (ext : Externals) (self : Multisphere) (sc : Scatterer)
    (target : Target) (a : AmncalcArgs) (rest : list Event) :
  trace (_calc_field ext self sc target) = Ev_amncalc a :: rest ->
  converged (amncalc ext a) <> 0%Z ->
  (0 <= lmax (amncalc ext a))%Z ->
  Forall (fun plane =>
            (limit_of (amncalc ext a) <= Z.of_nat (length plane))%Z)
         (amn0 (amncalc ext a)) ->
  amn_of (amncalc ext a)
  = map (firstn (Z.to_nat (limit_of (amncalc ext a)))) (amn0 (amncalc ext a))
  /\
  Forall (fun plane =>
            Z.of_nat (length plane)
            = (lmax (amncalc ext a) ^ 2 + 2 * lmax (amncalc ext a))%Z)
         (amn_of (amncalc ext a))
  /\
  (exists rest',
     rest = Ev_truncate (limit_of (amncalc ext a))
            :: Ev_isnan_amn (amn_of (amncalc ext a)) :: rest' /\
     (forall amn, In (Ev_isnan_amn amn) rest' -> amn = amn_of (amncalc ext a)) /\
     (forall targs, In (Ev_tmatrix_fields targs) rest' ->
                    t_amn targs = amn_of (amncalc ext a)))
  /\
  (forall amncalc' : AmncalcArgs -> AmncalcResult,
     lmax (amncalc' a) = lmax (amncalc ext a) ->
     converged (amncalc' a) = converged (amncalc ext a) ->
     agree_below (limit_of (amncalc ext a))
                 (amn0 (amncalc' a)) (amn0 (amncalc ext a)) ->
     _calc_field (with_amncalc ext amncalc') self sc target
     = _calc_field ext self sc target).
Proof.
  intros H Hc Hl Hlen.
  destruct (solver_invoked ext self sc target a rest H)
    as (l & -> & Hg & Ea & -> & _).
  set (res := amncalc ext a) in *.
  pose proof (limit_of_nonneg res Hl) as H0.
  split; [|split; [|split]].
  - unfold amn_of, slice_axis1. apply map_ext. intros plane.
    apply slice0_firstn. exact H0.
  - unfold amn_of, slice_axis1. apply Forall_map.
    revert Hlen. apply Forall_impl. intros plane Hp.
    apply slice0_length; assumption.
  - destruct (any_isnan (amn_of res)) eqn:Hn.
    + exists []. rewrite (after_solver_nan ext self l target res Hc Hn).
      split; [reflexivity|]. split; intros x [].
    + rewrite (after_solver_screened ext self l target res Hc Hn).
      eexists. split; [reflexivity|]. cbn [trace fst].
      destruct (after_fields_trace ext self l target
                  (tmatrix_fields ext (tmatrix_args l target res)))
        as [->|[v ->]]; split; intros x Hx; cbn in Hx;
        intuition (try discriminate);
        match goal with E : Ev_tmatrix_fields _ = _ |- _ =>
          injection E as <-; reflexivity end.
  - intros amncalc' Hl' Hc' Hagree.
    rewrite (calc_field_guards_pass (with_amncalc ext amncalc') self l target Hg).
    rewrite (calc_field_guards_pass ext self l target Hg).
    rewrite <- Ea. cbn [with_amncalc amncalc]. fold res.
    rewrite (after_solver_agree ext amncalc' self l target res (amncalc' a));
      try assumption; [reflexivity|].
    unfold amn_of, limit_of. rewrite Hl'. fold (limit_of res).
    apply slice_axis1_agree; assumption.
Qed.

End Truncation.

(** ** Translating a cluster *)

Section Translation.

Context {NP : NumPy}.

Definition vadd (a t : vec3) : vec3 :=
  let '(x, y, z) := a in let '(tx, ty, tz) := t in
  (fadd x tx, fadd y ty, fadd z tz).

(* every centre moved by t; radii and indices kept *)
Definition translate (t : vec3) (l : list Sphere) : list Sphere :=
  map (fun s => {| n := n s; r := r s; center := vadd (center s) t |}) l.

End Translation.

(** ** Runs in binary64 *)

Module Run64.

#[local] Existing Instance binary64.
#[local] Set Warnings "-inexact-float".
#[local] Open Scope float_scope.

(* Multisphere() with its default parameters *)
Definition theory : Multisphere :=
  {| niter := 200; eps := 1e-6; meth := 1; qeps1 := 1e-5; qeps2 := 1e-8 |}.

Definition sphere_at (radius x y z : PrimFloat.float) : Sphere :=
  {| n := PyFloat 1.6; r := radius; center := (x, y, z) |}.

(* wavevector 1, medium index 1.33, medium wavelength 2 pi; two sample
   points, whatever the origin; from_1d keeps the flat layout *)
Definition target1 : Target :=
  {| optics := {| wavevec := 1; index := 1.33;
                  med_wavelen := 0x1.921fb54442d18p+2;
                  polarization := (1, 0) |};
     positions_kr_theta_phi := fun _ => [(10, 1, 0); (10, 1, 1)];
     from_1d := fun x => x |}.

(* a raw coefficient array with four entries on axis 1, the last one being
   scratch *)
Definition raw_amn (c scratch : complex) : array3 :=
  [[[(1, 0); (2, 0)]; [c; (4, 0)]; [(5, 0); (6, 0)]; [scratch; scratch]];
   [[(1, 0); (2, 0)]; [(3, 0); (4, 0)]; [(5, 0); (6, 0)]; [scratch; scratch]]].

(* np.exp at the arguments the runs below reach, with the values the C
   library returns there: exp(-i pi), exp(-i 2 pi 2^52) and, for a cluster
   whose mean z is 0, exp(0) *)
Definition exp_table (c : complex) : complex :=
  if PrimFloat.eqb (imag c) (-0x1.921fb54442d18p+1)
  then (-1, -0x1.1a62633145c07p-53)
  else if PrimFloat.eqb (imag c) (-0x1.921fb54442d18p+54)
  then (0x1.cdaf2beee1467p-2, 0x1.c901ef76de2acp-1)
  else (1, 0).

(* stand-ins for the kernels: a solver that returns order 1 and the given
   raw array and convergence flag, and a reconstruction that returns the
   given fields *)
Definition stub (conv : Z) (raw : array3) (fields : Fields) : Externals :=
  {| amncalc := fun _ => {| out0 := 2; lmax := 1; amn0 := raw;
                            converged := conv |};
     tmatrix_fields := fun _ => fields;
     np_exp := exp_table |}.

Definition fields_ok : Fields :=
  ([(1, 0); (2, 0)], [(0, 1); (0, 2)], [(0, 0); (0, 0)]).

Definition ext_ok : Externals := stub 1 (raw_amn (3, 0) (7, 7)) fields_ok.

(* the two spheres of the end-to-end scenario *)
Definition pair : list Sphere :=
  [sphere_at 0.5 (-2) 0 0; sphere_at 0.5 2 0 0].

(* the second sphere has r * wavevec = 2000 *)
Definition oversized : list Sphere :=
  [sphere_at 0.5 (-5000) 0 0; sphere_at 2000 5000 0 0].

Lemma pair_guards_pass : guards_pass pair target1.
Proof.
  split.
  - intros s [<-|[<-|[]]]; vm_compute; reflexivity.
  - vm_compute. reflexivity.
Defined.

(* two spheres about the centroid (2, 4, 1), one index complex; a medium of
   index 2, wavevector 2, wavelength pi *)
Definition dimer : list Sphere :=
  [{| n := PyComplex (3, 0.5); r := 0.5; center := (1, 2, 3) |};
   {| n := PyFloat 2.5; r := 0.75; center := (3, 6, -1) |}].
Definition target_dimer : Target :=
  {| optics := {| wavevec := 2; index := 2;
                  med_wavelen := 0x1.921fb54442d18p+1;
                  polarization := (1, 0) |};
     positions_kr_theta_phi := fun _ => [(10, 1, 0); (10, 1, 1)];
     from_1d := fun x => x |}.

Lemma dimer_guards_pass : guards_pass dimer target_dimer.
Proof.
  split.
  - intros s [<-|[<-|[]]]; vm_compute; reflexivity.
  - vm_compute. reflexivity.
Defined.

(* Witness of C1: the centroid is (2, 4, 1); the solver receives the
   centred positions doubled, z with its sign changed, the parts of
   (3 + 0.5j) / 2 and 2.5 / 2, and the radii doubled. *)
Lemma solver_inputs_witness :
  guards_pass dimer target_dimer /\
  spec_centroid dimer = (2, 4, 1) /\
  exists a rest,
    trace (_calc_field ext_ok theory (SphereCluster dimer) target_dimer)
    = Ev_amncalc a :: rest /\
    a_x a = [-2; 2] /\ a_y a = [-4; 4] /\ a_z a = [-4; 4] /\
    a_mreal a = [1.5; 1.25] /\ a_mimag a = [0.25; 0] /\
    a_radii a = [1; 1.5].
Proof.
  split; [exact dimer_guards_pass|]. split; [reflexivity|].
  destruct (solver_inputs ext_ok theory dimer target_dimer dimer_guards_pass)
    as (a & rest & Ht & _ & Hx & Hy & Hz & Hr & Hi & Hk).
  exists a, rest. rewrite Hx, Hy, Hz, Hr, Hi, Hk.
  split; [exact Ht|]. repeat split.
Defined.

(* Witness of C7: a cluster with an oversized sphere, and the two-sphere
   cluster that has none. *)
Lemma radius_guard_witness :
  (exists l1 s' l2,
     oversized = l1 ++ s' :: l2 /\ radii_ok 1 l1 /\
     fgt (fmul (r s') 1) (of_int 1000) = true /\
     _calc_field ext_ok theory (SphereCluster oversized) target1
     = ([], inl (UnrealizableScatterer theory (inl s') radius_message)))
  /\
  (forall th who,
     outcome (_calc_field ext_ok theory (SphereCluster pair) target1)
     <> inl (UnrealizableScatterer th who radius_message)).
Proof.
  split.
  - apply (proj1 (radius_guard ext_ok theory oversized target1)
             (sphere_at 2000 5000 0 0)).
    + right. left. reflexivity.
    + vm_compute. reflexivity.
  - apply (proj2 (radius_guard ext_ok theory pair target1)).
    intros s [<-|[<-|[]]]; vm_compute; reflexivity.
Defined.

(* Witness of C3: a solver that reports no convergence. *)
Lemma convergence_failure_witness :
  _calc_field (stub 0 (raw_amn (3, 0) (7, 7)) fields_ok) theory
    (SphereCluster pair) target1
  = ([Ev_amncalc (amncalc_args theory pair target1)],
     inl ConvergenceFailureMultisphere).
Proof.
  apply (convergence_failure (stub 0 (raw_amn (3, 0) (7, 7)) fields_ok)
           theory (SphereCluster pair) target1
           (amncalc_args theory pair target1) []).
  - reflexivity.
  - reflexivity.
Defined.

(* the arguments and the result of the solver call on the two-sphere
   cluster *)
Definition pair_args : AmncalcArgs := amncalc_args theory pair target1.

(* Witness of C2: order 1, limit 3, raw planes of four entries. *)
Lemma truncation_witness :
  converged (amncalc ext_ok pair_args) <> 0%Z /\
  limit_of (amncalc ext_ok pair_args) = 3%Z /\
  amn_of (amncalc ext_ok pair_args)
  = map (firstn 3) (raw_amn (3, 0) (7, 7)) /\
  Forall (fun plane => Z.of_nat (length plane) = 3%Z)
         (amn_of (amncalc ext_ok pair_args)) /\
  (forall scratch : complex,
     _calc_field (with_amncalc ext_ok
                    (fun _ => {| out0 := 2; lmax := 1;
                                 amn0 := raw_amn (3, 0) scratch;
                                 converged := 1 |}))
       theory (SphereCluster pair) target1
     = _calc_field ext_ok theory (SphereCluster pair) target1).
Proof.
  assert (Hc : converged (amncalc ext_ok pair_args) <> 0%Z)
    by (cbn; discriminate).
  destruct (truncation ext_ok theory (SphereCluster pair) target1 pair_args
              (tl (trace (_calc_field ext_ok theory (SphereCluster pair)
                            target1))))
    as (Hkeep & Hlen & _ & Hind).
  - reflexivity.
  - exact Hc.
  - cbn. discriminate.
  - cbn. repeat constructor; discriminate.
  - split; [exact Hc|]. split; [reflexivity|].
    split; [exact Hkeep|]. split; [exact Hlen|].
    intros scratch. apply Hind.
    + reflexivity.
    + reflexivity.
    + cbn. repeat constructor.
Defined.

(* a NaN among the retained coefficients *)
Definition ext_nan : Externals := stub 1 (raw_amn (nan, 0) (7, 7)) fields_ok.

(* Witness of C5 as amended: a NaN below the limit, and no NaN at all. *)
Lemma expansion_nan_witness :
  _calc_field ext_nan theory (SphereCluster pair) target1
  = ([Ev_amncalc pair_args; Ev_truncate 3;
      Ev_isnan_amn (map (firstn 3) (raw_amn (nan, 0) (7, 7)))],
     inl MultisphereExpansionNaN)
  /\
  outcome (_calc_field ext_ok theory (SphereCluster pair) target1)
  <> inl MultisphereExpansionNaN.
Proof.
  split.
  - apply (proj1 (expansion_nan ext_nan theory (SphereCluster pair) target1
                    pair_args
                    (tl (trace (_calc_field ext_nan theory
                                  (SphereCluster pair) target1)))
                    eq_refl
                    ltac:(cbn; discriminate))).
    eexists. exists [(nan, 0); (4, 0)], (nan, 0).
    split; [left; reflexivity|].
    split; [right; left; reflexivity|].
    split; [left; reflexivity|]. left. reflexivity.
  - apply (proj2 (expansion_nan ext_ok theory (SphereCluster pair) target1
                    pair_args
                    (tl (trace (_calc_field ext_ok theory
                                  (SphereCluster pair) target1)))
                    eq_refl
                    ltac:(cbn; discriminate))).
    intros H. apply any_isnan_iff in H. vm_compute in H. discriminate.
Defined.

(* the first value of the x component is NaN *)
Definition fields_nan_first : Fields :=
  ([(nan, 0); (2, 0)], [(0, 1); (0, 2)], [(0, 0); (0, 0)]).
Definition ext_field_nan : Externals :=
  stub 1 (raw_amn (3, 0) (7, 7)) fields_nan_first.

(* Witness of C6 as amended. *)
Lemma field_nan_witness :
  _calc_field ext_field_nan theory (SphereCluster pair) target1
  = ([Ev_amncalc pair_args; Ev_truncate 3;
      Ev_isnan_amn (map (firstn 3) (raw_amn (3, 0) (7, 7)));
      Ev_tmatrix_fields
        (tmatrix_args pair target1 (amncalc ext_field_nan pair_args));
      Ev_isnan_field (nan, 0)],
     inl (MultisphereFieldNaN theory (SphereCluster pair) "")).
Proof.
  apply (proj1 (field_nan ext_field_nan theory pair target1 (nan, 0)
                  [(2, 0)] [(0, 1); (0, 2)] [(0, 0); (0, 0)]
                  pair_guards_pass ltac:(cbn; discriminate)
                  eq_refl eq_refl eq_refl)).
Defined.

(** *** Where the code departs from the spec *)

(* three spheres about the origin: x = -20000, 10000, 10000 *)
Definition lopsided : list Sphere :=
  [sphere_at 0.5 (-20000) 0 0; sphere_at 0.5 10000 5 0;
   sphere_at 0.5 10000 (-5) 0].
(* its mirror image: x = 20000, -10000, -10000 *)
Definition mirrored : list Sphere :=
  [sphere_at 0.5 20000 0 0; sphere_at 0.5 (-10000) 5 0;
   sphere_at 0.5 (-10000) (-5) 0].

(** C4 at a failing input.  The first sphere of [lopsided] has the
    nondimensional x coordinate -20000, of magnitude 2e4 > 1e4; the guard
    compares the signed value, lets the cluster through and the solver is
    invoked.  The mirrored cluster, with +20000, is rejected. *)
Lemma negative_separation_unguarded :
  col0 (nondim_centers lopsided 1) = [-20000; 10000; 10000] /\
  PrimFloat.ltb 10000 (PrimFloat.abs (-20000)) = true /\
  any_gt (nondim_centers lopsided 1) (of_int 10000) = false /\
  (exists rest,
     trace (_calc_field ext_ok theory (SphereCluster lopsided) target1)
     = Ev_amncalc (amncalc_args theory lopsided target1) :: rest) /\
  _calc_field ext_ok theory (SphereCluster mirrored) target1
  = ([], inl (UnrealizableScatterer theory (inr (SphereCluster mirrored))
                separation_message)).
Proof.
  split; [reflexivity|]. split; [reflexivity|]. split; [reflexivity|].
  split; [eexists; reflexivity|reflexivity].
Qed.

(* an infinite coefficient below the limit *)
Definition ext_inf : Externals :=
  stub 1 (raw_amn (infinity, 0) (7, 7)) fields_ok.

(** C5 as stated fails: the retained entry (inf, 0) is not finite, the
    screen lets it through, the fields are reconstructed and the
    calculation returns a result. *)
Lemma infinite_coefficient_passes_screen :
  In (infinity, 0)
     (nth 1 (nth 0 (amn_of (amncalc ext_inf pair_args)) []) []) /\
  PrimFloat.is_finite infinity = false /\
  In (Ev_tmatrix_fields
        (tmatrix_args pair target1 (amncalc ext_inf pair_args)))
     (trace (_calc_field ext_inf theory (SphereCluster pair) target1)) /\
  outcome (_calc_field ext_inf theory (SphereCluster pair) target1)
  = inr [(1, 0, (0, 1), (0, 0)); (2, 0, (0, 2), (0, 0))].
Proof.
  split; [left; reflexivity|]. split; [reflexivity|].
  split; [|reflexivity].
  right. right. right. left. reflexivity.
Qed.

(* fields whose first x value is finite: a NaN at the second sample point
   of the x component, an infinity in the y component *)
Definition fields_nan_later : Fields :=
  ([(1, 0); (nan, 0)], [(infinity, 1); (0, 2)], [(0, 0); (0, 0)]).
Definition ext_field_nan_later : Externals :=
  stub 1 (raw_amn (3, 0) (7, 7)) fields_nan_later.

(** C6 as stated fails: the computed fields hold a NaN and an infinity, but
    not in the first value of the x component; no error is raised and the
    result carries them. *)
Lemma nonfinite_field_returned :
  PrimFloat.is_finite nan = false /\
  PrimFloat.is_finite infinity = false /\
  outcome (_calc_field ext_field_nan_later theory (SphereCluster pair)
             target1)
  = inr [(1, 0, (infinity, nan), (0, 0)); (nan, nan, (0, 2), (0, 0))].
Proof. repeat split. Qed.

(* two spheres one unit apart on x, and the shift by 2^52 along x, which
   both centres take without rounding *)
Definition near : list Sphere := [sphere_at 0.5 0 0 0; sphere_at 0.5 1 0 0].
Definition shift : vec3 := (4503599627370496, 0, 0).

Definition head_is (x : PrimFloat.float) (l : list PrimFloat.float) : bool :=
  match l with
  | y :: _ => PrimFloat.eqb x y
  | [] => false
  end.

(** C10 as stated fails in binary64: the centres of [near] moved by 2^52
    are 2^52 and 2^52 + 1, their sum rounds to 2^53, the centroid to 2^52,
    and the solver receives x = [0; 1] where it received [-0.5; 0.5]. *)
Lemma translated_inputs_differ :
  centers (translate shift near)
  = [(4503599627370496, 0, 0); (4503599627370497, 0, 0)] /\
  a_x (amncalc_args theory near target1) = [-0.5; 0.5] /\
  a_x (amncalc_args theory (translate shift near) target1) = [0; 1] /\
  a_x (amncalc_args theory (translate shift near) target1)
  <> a_x (amncalc_args theory near target1).
Proof.
  split; [reflexivity|]. split; [reflexivity|]. split; [reflexivity|].
  intros H. apply (f_equal (head_is 0)) in H. vm_compute in H.
  discriminate.
Qed.

(* two touching spheres on the axis, at z = 0 and z = 1, the shift by 2^52
   along z, which both centres take without rounding, and a target with
   medium wavelength 1 (wavevector 2 pi) *)
Definition axial : list Sphere := [sphere_at 0.5 0 0 0; sphere_at 0.5 0 0 1].
Definition lift : vec3 := (0, 0, 4503599627370496).
Definition target2 : Target :=
  {| optics := {| wavevec := 0x1.921fb54442d18p+2; index := 1.33;
                  med_wavelen := 1; polarization := (1, 0) |};
     positions_kr_theta_phi := fun _ => [(10, 1, 0); (10, 1, 1)];
     from_1d := fun x => x |}.

(** C8 as stated fails in binary64.  The mean z of [axial] is 0.5 and its
    phase factor is exp(-i pi), about -1.  Moved by dz = 2^52 the centres are
    2^52 and 2^52 + 1, their mean rounds to 2^52, and the phase factor of the
    moved cluster is exp(-i 2 pi 2^52): the factor the claim names, not that
    factor times the former phase factor.  Both calculations succeed, on the
    same sample coordinates. *)
Lemma translated_phase_differs :
  centers (translate lift axial)
  = [(0, 0, 4503599627370496); (0, 0, 4503599627370497)] /\
  positions_kr_theta_phi target2 (mean0 (centers (translate lift axial)))
  = positions_kr_theta_phi target2 (mean0 (centers axial)) /\
  (exists res,
     outcome (_calc_field ext_ok theory (SphereCluster axial) target2)
     = inr res) /\
  (exists res',
     outcome (_calc_field ext_ok theory (SphereCluster (translate lift axial))
                target2)
     = inr res') /\
  phase_factor ext_ok axial target2 = (-1, -0x1.1a62633145c07p-53) /\
  np_exp ext_ok (phase_argument 4503599627370496 1)
  = (0x1.cdaf2beee1467p-2, 0x1.c901ef76de2acp-1) /\
  phase_factor ext_ok (translate lift axial) target2
  = (0x1.cdaf2beee1467p-2, 0x1.c901ef76de2acp-1) /\
  cmul (phase_factor ext_ok axial target2)
       (np_exp ext_ok (phase_argument 4503599627370496 1))
  = (-0x1.cdaf2beee1465p-2, -0x1.c901ef76de2acp-1) /\
  PrimFloat.eqb
    (real (phase_factor ext_ok (translate lift axial) target2))
    (real (cmul (phase_factor ext_ok axial target2)
                (np_exp ext_ok (phase_argument 4503599627370496 1))))
  = false.
Proof.
  split; [reflexivity|]. split; [reflexivity|].
  split; [eexists; reflexivity|]. split; [eexists; reflexivity|].
  split; [reflexivity|]. split; [reflexivity|]. split; [reflexivity|].
  split; reflexivity.
Qed.

End Run64.

(** ** Exact arithmetic: invariance under translation *)

Section Exactness.

#[local] Existing Instance exact.
#[local] Open Scope R_scope.

Lemma fold_left_shift (t : R) (l : list R) (a c : R) :
  fold_left Rplus (map (fun x => x + t) l) (a + c)
  = fold_left Rplus l a + c + IZR (Z.of_nat (length l)) * t.
Proof.
  revert a c. induction l as [|x l IH]; intros a c.
  - cbn. ring.
  - cbn [map fold_left length].
    replace (a + c + (x + t)) with ((a + x) + (c + t)) by ring.
    rewrite IH, Nat2Z.inj_succ, succ_IZR. ring.
Qed.

Lemma np_mean_shift (t : R) (l : list R) :
  l <> [] -> np_mean (map (fun x => x + t) l) = np_mean l + t.
Proof.
  destruct l as [|x l]; [congruence|]. intros _.
  unfold np_mean, np_sum. cbn [map].
  cbv beta iota delta [fadd fdiv of_int float exact].
  rewrite (fold_left_shift t l x t). cbn [length].
  rewrite length_map, Nat2Z.inj_succ, succ_IZR.
  assert (0 <= IZR (Z.of_nat (length l))) by (apply IZR_le; lia).
  field. lra.
Qed.

(* without rounding, the order of the additions does not matter: the
   pairwise sum of a 1-d array is the sum of its values, and its mean the
   mean taken one value after the other *)
Definition total (l : list R) : R := fold_left Rplus l 0.

Lemma fold_left_total (l : list R) (a : R) :
  fold_left Rplus l a = a + total l.
Proof.
  unfold total. revert a. induction l as [|x l IH]; intros a.
  - cbn. ring.
  - cbn [fold_left]. rewrite (IH (a + x)), (IH (0 + x)). ring.
Qed.

Lemma total_cons (x : R) (l : list R) : total (x :: l) = x + total l.
Proof. unfold total at 1. cbn [fold_left]. rewrite fold_left_total. ring. Qed.

Lemma total_app (l1 l2 : list R) : total (l1 ++ l2) = total l1 + total l2.
Proof.
  induction l1 as [|x l1 IH]; cbn [app].
  - unfold total at 2. cbn. ring.
  - rewrite !total_cons, IH. ring.
Qed.

Lemma total_split (k : nat) (l : list R) :
  total (firstn k l) + total (skipn k l) = total l.
Proof. rewrite <- total_app, firstn_skipn. reflexivity. Qed.

Lemma add_lanes_length (r a : list R) :
  length (add_lanes (NP := exact) r a) = length r.
Proof.
  revert a. induction r as [|x r IH]; intros [|y a]; cbn; try reflexivity.
  rewrite IH. reflexivity.
Qed.

Lemma add_lanes_total (r a : list R) :
  total (add_lanes (NP := exact) r a)
  = total r + total (firstn (length r) a).
Proof.
  revert a. induction r as [|x r IH]; intros [|y a]; cbn [add_lanes length firstn].
  - unfold total. cbn. ring.
  - unfold total. cbn. ring.
  - unfold total at 3. cbn. ring.
  - change (@fadd exact x y) with (x + y). rewrite !total_cons, IH. ring.
Qed.

Lemma unrolled_total (blocks : nat) (r l : list R) :
  length r = 8%nat ->
  length (fst (unrolled (NP := exact) blocks r l)) = 8%nat /\
  total (fst (unrolled (NP := exact) blocks r l))
  + total (snd (unrolled (NP := exact) blocks r l))
  = total r + total l.
Proof.
  revert r l. induction blocks as [|b IH]; intros r l Hr; cbn [unrolled].
  - split; [exact Hr|reflexivity].
  - destruct (IH (add_lanes (NP := exact) r (firstn 8 l)) (skipn 8 l))
      as [Hl Ht].
    + rewrite add_lanes_length. exact Hr.
    + split; [exact Hl|].
      change (@float exact) with R in *.
      rewrite Ht, add_lanes_total, Hr.
      rewrite firstn_firstn, Nat.min_id, <- (total_split 8 l). ring.
Qed.

Lemma combine_lanes_total (r : list R) :
  length r = 8%nat -> combine_lanes (NP := exact) r = total r.
Proof.
  destruct r as [|r0 [|r1 [|r2 [|r3 [|r4 [|r5 [|r6 [|r7 [|r8 r]]]]]]]]];
    try discriminate.
  intros _. unfold total. cbn. ring.
Qed.

Lemma block_sum_total (l : list R) :
  (8 <= length l)%nat -> block_sum (NP := exact) l = total l.
Proof.
  intros H. unfold block_sum.
  pose proof (unrolled_total ((length l - 8) / 8) (firstn 8 l) (skipn 8 l))
    as Hu.
  change (@float exact) with R in *.
  destruct (unrolled (NP := exact) ((length l - 8) / 8)
              (firstn 8 l) (skipn 8 l)) as [r rest].
  destruct Hu as [Hl Ht].
  { rewrite length_firstn. lia. }
  cbn [fst snd] in Hl, Ht.
  change (fold_left Rplus rest (combine_lanes (NP := exact) r) = total l).
  rewrite fold_left_total, (combine_lanes_total r Hl), Ht.
  apply total_split.
Qed.

Lemma pairwise_sum_total (fuel : nat) (l : list R) :
  pairwise_sum (NP := exact) fuel l = total l.
Proof.
  revert l. induction fuel as [|f IH]; intros l; cbn [pairwise_sum].
  all: change (@float exact) with R.
  all: destruct (length l <? 8)%nat eqn:E8;
    [change (fold_left Rplus l (- 0) = total l);
     rewrite Ropp_0; reflexivity|].
  all: apply Nat.ltb_ge in E8.
  all: destruct (length l <=? 128)%nat eqn:E128;
    try (apply block_sum_total; exact E8).
  change (pairwise_sum (NP := exact) f
            (firstn (length l / 2 - (length l / 2) mod 8) l)
          + pairwise_sum (NP := exact) f
              (skipn (length l / 2 - (length l / 2) mod 8) l) = total l).
  rewrite !IH. apply total_split.
Qed.

Lemma np_mean_1d_exact (l : list R) :
  np_mean_1d (NP := exact) l = np_mean (NP := exact) l.
Proof.
  unfold np_mean_1d, np_mean. f_equal.
  destruct l as [|x t]; [reflexivity|].
  unfold np_sum_1d, np_sum. rewrite pairwise_sum_total.
  change (- 0 + total (x :: t) = fold_left Rplus t x).
  rewrite total_cons, fold_left_total. ring.
Qed.

Lemma centers_translate_cols (t : vec3) (l : list Sphere) :
  col0 (centers (translate t l)) = map (fun x => x + vx t) (col0 (centers l)) /\
  col1 (centers (translate t l)) = map (fun x => x + vy t) (col1 (centers l)) /\
  col2 (centers (translate t l)) = map (fun x => x + vz t) (col2 (centers l)).
Proof.
  destruct t as [[tx ty] tz].
  unfold col0, col1, col2, centers, translate. rewrite !map_map.
  repeat split; apply map_ext; intros s; cbn [center];
    destruct (center s) as [[x y] z]; reflexivity.
Qed.

Lemma mean0_translate (t : vec3) (l : list Sphere) :
  l <> [] -> mean0 (centers (translate t l)) = vadd (mean0 (centers l)) t.
Proof.
  intros Hl. unfold mean0.
  destruct (centers_translate_cols t l) as (-> & -> & ->).
  assert (Hc : forall f : vec3 -> R, map f (centers l) <> []).
  { intros f. destruct l; [congruence|discriminate]. }
  rewrite !np_mean_shift by (apply Hc).
  destruct t as [[tx ty] tz]. reflexivity.
Qed.

Lemma nondim_centers_translate (t : vec3) (l : list Sphere) (k : R) :
  nondim_centers (translate t l) k = nondim_centers l k.
Proof.
  destruct l as [|s0 l]; [reflexivity|].
  unfold nondim_centers.
  rewrite mean0_translate by discriminate.
  generalize (mean0 (centers (s0 :: l))). intros [[mx my] mz].
  destruct t as [[tx ty] tz].
  unfold mul_scalar2, sub_row, centers, translate. rewrite !map_map.
  apply map_ext. intros s. cbn [center vadd].
  destruct (center s) as [[x y] z].
  cbv beta iota zeta delta [vadd fsub fadd fmul float exact].
  assert (E : forall a m d : R, (a + d - (m + d)) * k = (a - m) * k)
    by (intros; ring).
  rewrite !E. reflexivity.
Qed.

Lemma amncalc_args_translate (self : Multisphere) (t : vec3)
    (l : list Sphere) (target : Target) :
  amncalc_args self (translate t l) target = amncalc_args self l target.
Proof.
  unfold amncalc_args. rewrite nondim_centers_translate.
  unfold relative_index, indices, radii, translate. rewrite !map_map.
  reflexivity.
Qed.

(** C10, in exact arithmetic.  When the centre arithmetic does not round,
    moving every sphere centre of a cluster by one vector t leaves the
    position arrays handed to the solver, x, y and the sign-flipped z,
    exactly as they were: the centroid moves by t with the centres and is
    subtracted before the scaling by the wavevector. *)
Theorem translation_invariant_inputs (self : Multisphere) (t : vec3)
    (l : list Sphere) (target : Target) :
  a_x (amncalc_args self (translate t l) target)
  = a_x (amncalc_args self l target) /\
  a_y (amncalc_args self (translate t l) target)
  = a_y (amncalc_args self l target) /\
  a_z (amncalc_args self (translate t l) target)
  = a_z (amncalc_args self l target).
Proof. rewrite amncalc_args_translate. repeat split. Qed.

Lemma phase_argument_exact (z lambda : R) :
  lambda <> 0 -> phase_argument z lambda = (0, - (2 * PI * z / lambda)).
Proof.
  intros H. unfold phase_argument, neg_j, of_float.
  cbv beta iota zeta delta
    [cmul py_cquot fneg of_int np_pi float exact Exact.mul Exact.div
     fst snd].
  apply f_equal2; field; exact H.
Qed.

Lemma cexp_add (a1 a2 b1 b2 : R) :
  Exact.cexp (a1 + b1, a2 + b2)
  = Exact.mul (Exact.cexp (a1, a2)) (Exact.cexp (b1, b2)).
Proof.
  unfold Exact.cexp, Exact.mul. cbn [fst snd].
  rewrite exp_plus, cos_plus, sin_plus. apply f_equal2; ring.
Qed.

Lemma cexp_unit (theta : R) :
  fst (Exact.cexp (0, theta)) * fst (Exact.cexp (0, theta))
  + snd (Exact.cexp (0, theta)) * snd (Exact.cexp (0, theta)) = 1.
Proof.
  unfold Exact.cexp. cbn [fst snd]. rewrite exp_0.
  pose proof (sin2_cos2 theta) as H. unfold Rsqr in H. lra.
Qed.

Lemma cabs_mul_unit (c f : R * R) :
  fst f * fst f + snd f * snd f = 1 ->
  Exact.cabs (Exact.mul c f) = Exact.cabs c.
Proof.
  intros H. unfold Exact.cabs, Exact.mul. cbn [fst snd]. f_equal.
  replace ((fst c * fst f - snd c * snd f) * (fst c * fst f - snd c * snd f)
           + (fst c * snd f + snd c * fst f) * (fst c * snd f + snd c * fst f))
    with ((fst c * fst c + snd c * snd c)
          * (fst f * fst f + snd f * snd f)) by ring.
  rewrite H. ring.
Qed.

(* the moduli of the field values *)
Definition magnitudes (res : list cvec3) : list (R * R * R) :=
  map (fun v : cvec3 => let '(x, y, z) := v in
                (Exact.cabs x, Exact.cabs y, Exact.cabs z)) res.

Lemma magnitudes_scale (res : list cvec3) (f : R * R) :
  fst f * fst f + snd f * snd f = 1 ->
  magnitudes (scale res f) = magnitudes res.
Proof.
  intros H. unfold magnitudes, scale. rewrite map_map.
  apply map_ext. intros [[x y] z].
  cbv beta iota zeta delta [cmul exact].
  rewrite !(cabs_mul_unit _ f H). reflexivity.
Qed.

Lemma mul_assoc (x p f : R * R) :
  Exact.mul (Exact.mul x p) f = Exact.mul x (Exact.mul p f).
Proof. unfold Exact.mul. cbn [fst snd]. apply f_equal2; ring. Qed.

Lemma scale_scale (res : list cvec3) (p f : complex) :
  scale (scale res p) f = scale res (Exact.mul p f).
Proof.
  unfold scale. rewrite map_map. apply map_ext. intros [[x y] z].
  cbv beta iota zeta delta [cmul exact]. rewrite !mul_assoc. reflexivity.
Qed.

Lemma radii_ok_translate (k : R) (t : vec3) (l : list Sphere) :
  radii_ok k l -> radii_ok k (translate t l).
Proof.
  intros H s Hs. unfold translate in Hs. apply in_map_iff in Hs.
  destruct Hs as (s0 & <- & Hs0). exact (H s0 Hs0).
Qed.

Lemma amncalc_args_optics (self : Multisphere) (l : list Sphere)
    (target target' : Target) :
  optics target' = optics target ->
  amncalc_args self l target' = amncalc_args self l target.
Proof. intros H. unfold amncalc_args. rewrite H. reflexivity. Qed.

Lemma phase_factor_translate (ext : Externals) (l : list Sphere)
    (target target' : Target) (dz : R) :
  l <> [] ->
  med_wavelen (optics target) <> 0 ->
  (forall c, np_exp ext c = Exact.cexp c) ->
  optics target' = optics target ->
  phase_factor ext l target
  = Exact.cexp (0, - (2 * PI * np_mean (zs l) / med_wavelen (optics target)))
  /\
  phase_factor ext (translate (0, 0, dz) l) target'
  = Exact.mul (phase_factor ext l target)
      (Exact.cexp (0, - (2 * PI * dz / med_wavelen (optics target)))).
Proof.
  intros Hl Hw Hexp Hopt. unfold phase_factor. rewrite !Hexp, Hopt.
  rewrite !phase_argument_exact by exact Hw.
  rewrite !np_mean_1d_exact.
  split; [reflexivity|]. unfold zs.
  destruct (centers_translate_cols (0, 0, dz) l) as (_ & _ & ->).
  rewrite np_mean_shift by (destruct l; [congruence|discriminate]).
  cbn [vz snd]. rewrite <- cexp_add. f_equal. apply f_equal2; field; exact Hw.
Qed.

(** C8, in exact arithmetic, with np.exp the complex exponential and a
    nonzero medium wavelength.  A successful calculation returns the
    reconstructed fields, stacked and mapped onto the target, times
    exp(-i 2 pi mean(z) / med_wavelen).  If every centre of the (nonempty)
    cluster is moved by dz along z and the target gives the same sample
    coordinates about the new centroid as it gave about the old one, the
    phase factor is multiplied by exactly exp(-i 2 pi dz / med_wavelen), the
    calculation succeeds again, its result is the former one times that
    factor, and the modulus of every field value is unchanged. *)
Theorem phase_under_translation (ext : Externals) (self : Multisphere)
    (l : list Sphere) (target target' : Target) (dz : R)
    (res : list cvec3) :
  l <> [] ->
  med_wavelen (optics target) <> 0 ->
  (forall c, np_exp ext c = Exact.cexp c) ->
  optics target' = optics target ->
  (forall x, from_1d target' x = from_1d target x) ->
  positions_kr_theta_phi target' (mean0 (centers (translate (0, 0, dz) l)))
  = positions_kr_theta_phi target (mean0 (centers l)) ->
  outcome (_calc_field ext self (SphereCluster l) target) = inr res ->
  (exists stacked,
     vstack_T (tmatrix_fields ext
                 (tmatrix_args l target
                    (amncalc ext (amncalc_args self l target))))
     = ret stacked /\
     res = scale (from_1d target stacked)
             (Exact.cexp (0, - (2 * PI * np_mean (zs l)
                                / med_wavelen (optics target)))))
  /\
  phase_factor ext (translate (0, 0, dz) l) target'
  = Exact.mul (phase_factor ext l target)
      (Exact.cexp (0, - (2 * PI * dz / med_wavelen (optics target))))
  /\
  outcome (_calc_field ext self (SphereCluster (translate (0, 0, dz) l))
             target')
  = inr (scale res
           (Exact.cexp (0, - (2 * PI * dz / med_wavelen (optics target)))))
  /\
  magnitudes
    (scale res (Exact.cexp (0, - (2 * PI * dz / med_wavelen (optics target)))))
  = magnitudes res.
Proof.
  intros Hl Hw Hexp Hopt Hfrom Hpos H.
  destruct (success_inversion ext self l target res H)
    as ([Hr Hs] & Hc & Hn & v & fx & fy & fz & stacked & Hf & Hv & Hq & Hz
        & ->).
  destruct (phase_factor_translate ext l target target' dz Hl Hw Hexp Hopt)
    as [Hp Hp'].
  split; [|split; [exact Hp'|split]].
  - exists stacked. rewrite Hf, <- Hp. unfold vstack_T. rewrite Hz.
    split; reflexivity.
  - assert (Ea : amncalc_args self (translate (0, 0, dz) l) target'
                 = amncalc_args self l target).
    { rewrite amncalc_args_translate. apply amncalc_args_optics, Hopt. }
    assert (Et : tmatrix_args (translate (0, 0, dz) l) target'
                   (amncalc ext (amncalc_args self l target))
                 = tmatrix_args l target
                     (amncalc ext (amncalc_args self l target))).
    { unfold tmatrix_args. rewrite Hpos, Hopt. reflexivity. }
    rewrite (success_construction ext self
               (translate (NP := exact) (0, 0, dz) l) target'
               v fx fy fz stacked).
    + rewrite Hfrom, Hp', scale_scale. reflexivity.
    + split.
      * rewrite Hopt. apply radii_ok_translate, Hr.
      * unfold separation_ok. rewrite Hopt, nondim_centers_translate.
        exact Hs.
    + rewrite Ea. exact Hc.
    + rewrite Ea. exact Hn.
    + rewrite Ea, Et. exact Hf.
    + exact Hv.
    + rewrite Hopt. exact Hq.
    + exact Hz.
  - apply magnitudes_scale, cexp_unit.
Qed.

End Exactness.

(** ** A run in exact arithmetic *)

Module RunExact.

#[local] Existing Instance exact.
#[local] Open Scope R_scope.

Lemma gt_false (a b : R) : a <= b -> Exact.gt a b = false.
Proof. intros H. unfold Exact.gt. destruct (Rgt_dec a b); [lra|reflexivity]. Qed.

Definition theory : Multisphere :=
  {| niter := 200; eps := 1 / 1000000; meth := 1;
     qeps1 := 1 / 100000; qeps2 := 1 / 100000000 |}.

(* one sphere of radius 1/2 at the origin *)
Definition single : list Sphere :=
  [{| n := PyFloat (8 / 5); r := 1 / 2; center := (0, 0, 0) |}].

Definition target1 : Target :=
  {| optics := {| wavevec := 1; index := 133 / 100; med_wavelen := 2;
                  polarization := (1, 0) |};
     positions_kr_theta_phi := fun _ => [(10, 1, 0)];
     from_1d := fun x => x |}.

Definition ext1 : Externals :=
  {| amncalc := fun _ => {| out0 := 1; lmax := 1;
                            amn0 := [[[(1, 0)]; [(2, 0)]; [(3, 0)]]];
                            converged := 1 |};
     tmatrix_fields := fun _ => ([(1, 0)], [(0, 1)], [(0, 0)]);
     np_exp := Exact.cexp |}.

Definition res1 : list cvec3 :=
  scale [((1, 0), (0, 1), (0, 0))] (phase_factor ext1 single target1).

Lemma single_result :
  outcome (_calc_field ext1 theory (SphereCluster single) target1) = inr res1.
Proof.
  apply (success_construction ext1 theory single target1
           (1, 0) [] [(0, 1)] [(0, 0)] [((1, 0), (0, 1), (0, 0))]).
  - split.
    + intros s [<-|[]]. cbn. apply gt_false. lra.
    + unfold separation_ok. cbn. rewrite !gt_false by lra. reflexivity.
  - cbn. discriminate.
  - reflexivity.
  - reflexivity.
  - reflexivity.
  - cbn. unfold Exact.eqb. destruct (Req_dec_T 2 0); [lra|reflexivity].
  - reflexivity.
Defined.

(* Witness of C8 as amended: one sphere at the origin, moved by 1 along z;
   the target's sample coordinates do not depend on the origin. *)
Lemma phase_under_translation_witness :
  outcome (_calc_field ext1 theory
             (SphereCluster (translate (0, 0, 1) single)) target1)
  = inr (scale res1 (Exact.cexp (0, - (2 * PI * 1 / 2)))) /\
  magnitudes (scale res1 (Exact.cexp (0, - (2 * PI * 1 / 2))))
  = magnitudes res1.
Proof.
  destruct (phase_under_translation ext1 theory single target1 target1 1 res1)
    as (_ & _ & H3 & H4).
  - discriminate.
  - cbn. lra.
  - reflexivity.
  - reflexivity.
  - reflexivity.
  - reflexivity.
  - exact single_result.
  - split; assumption.
Defined.

End RunExact.

(** ** Further behaviour of _calc_field, for every numeric implementation *)

Section Behaviour.

Context {NP : NumPy}.

Variable ext : Externals.
Variable self : Multisphere.

(* the five steps of a complete run on the cluster l, v being the value
   fields[0][0] *)
Definition full_trace (l : list Sphere) (target : Target) (v : complex)
  : list Event :=
  let a := amncalc_args self l target in
  let res := amncalc ext a in
  [Ev_amncalc a; Ev_truncate (limit_of res); Ev_isnan_amn (amn_of res);
   Ev_tmatrix_fields (tmatrix_args l target res); Ev_isnan_field v].

(** X1.  The steps of a run come in one order, each at most once, and the
    way a run ends fixes how far it got: a guard's UnrealizableScatterer
    before anything; ConvergenceFailureMultisphere right after the solver
    call; MultisphereExpansionNaN after truncation and coefficient screen;
    IndexError after the reconstruction; MultisphereFieldNaN, the
    ZeroDivisionError of the phase factor (exactly when the first field
    value is not NaN and the medium wavelength is zero), ValueError or a
    result after all five steps. *)
Theorem steps_in_order (l : list Sphere) (target : Target) :
  let run := _calc_field ext self (SphereCluster l) target in
  exists v,
    (trace run = [] /\
     exists who message,
       outcome run = inl (UnrealizableScatterer self who message)) \/
    (trace run = firstn 1 (full_trace l target v) /\
     outcome run = inl ConvergenceFailureMultisphere) \/
    (trace run = firstn 3 (full_trace l target v) /\
     outcome run = inl MultisphereExpansionNaN) \/
    (trace run = firstn 4 (full_trace l target v) /\
     outcome run = inl IndexError) \/
    (trace run = full_trace l target v /\
     (outcome run = inl (MultisphereFieldNaN self (SphereCluster l) "") \/
      (cisnan v = false /\
       feq (med_wavelen (optics target)) (of_int 0) = true /\
       outcome run = inl ZeroDivisionError) \/
      (feq (med_wavelen (optics target)) (of_int 0) = false /\
       (outcome run = inl ValueError \/
        exists res, outcome run = inr res)))).
Proof.
  cbv zeta.
  destruct (guards_cases ext self l target)
    as [Hg|[(l1 & s & l2 & _ & _ & _ & E)|[_ E]]].
  2: { exists (of_float (of_int 0)). left. rewrite E.
       split; [reflexivity|]. eexists. eexists. reflexivity. }
  2: { exists (of_float (of_int 0)). left. rewrite E.
       split; [reflexivity|]. eexists. eexists. reflexivity. }
  rewrite (calc_field_guards_pass ext self l target Hg), bind_emit.
  unfold full_trace.
  set (res := amncalc ext (amncalc_args self l target)).
  destruct (Z.eq_dec (converged res) 0) as [Hc|Hc].
  { exists (of_float (of_int 0)). right. left.
    rewrite (after_solver_unconverged ext self l target res Hc).
    split; reflexivity. }
  destruct (any_isnan (amn_of res)) eqn:Hn.
  { exists (of_float (of_int 0)). right. right. left.
    rewrite (after_solver_nan ext self l target res Hc Hn).
    split; reflexivity. }
  rewrite (after_solver_screened ext self l target res Hc Hn).
  destruct (tmatrix_fields ext (tmatrix_args l target res))
    as [[[|v fx] fy] fz].
  { exists (of_float (of_int 0)). right. right. right. left.
    split; reflexivity. }
  exists v. right. right. right. right.
  destruct (cisnan v) eqn:Hv.
  - rewrite (after_fields_nan ext self l target v fx fy fz Hv).
    split; [reflexivity|]. left. reflexivity.
  - rewrite (after_fields_finite ext self l target v fx fy fz Hv).
    split; [reflexivity|]. cbn [outcome snd].
    destruct (feq (med_wavelen (optics target)) (of_int 0)).
    { right. left. repeat split. }
    right. right. split; [reflexivity|].
    destruct (zip3 (v :: fx) fy fz).
    + right. eexists. reflexivity.
    + left. reflexivity.
Qed.

(** X2.  A run on a cluster returns a result exactly when the cluster
    passes both guards, the solver reports convergence (any nonzero flag),
    no retained coefficient is NaN, the x component of the reconstructed
    fields has a first value that is not NaN, the medium wavelength is not
    zero (the phase factor divides by it) and the three components have one
    length; the result is then the stacked fields mapped by from_1d, every
    value multiplied by the phase factor. *)
Theorem result_iff (l : list Sphere) (target : Target) (res : list cvec3) :
  outcome (_calc_field ext self (SphereCluster l) target) = inr res
  <->
  (guards_pass l target /\
   converged (amncalc ext (amncalc_args self l target)) <> 0%Z /\
   any_isnan (amn_of (amncalc ext (amncalc_args self l target))) = false /\
   exists v fx fy fz stacked,
     tmatrix_fields ext
       (tmatrix_args l target (amncalc ext (amncalc_args self l target)))
     = (v :: fx, fy, fz) /\
     cisnan v = false /\
     feq (med_wavelen (optics target)) (of_int 0) = false /\
     zip3 (v :: fx) fy fz = Some stacked /\
     res = scale (from_1d target stacked) (phase_factor ext l target)).
Proof.
  split.
  - apply success_inversion.
  - intros (Hg & Hc & Hn & v & fx & fy & fz & stacked & Hf & Hv & Hw & Hz
            & ->).
    exact (success_construction ext self l target v fx fy fz stacked
             Hg Hc Hn Hf Hv Hw Hz).
Qed.

End Behaviour.

(** ** The guards and the solver call, sphere by sphere *)

Section Guards.

Context {NP : NumPy}.

Variable ext : Externals.
Variable self : Multisphere.

(* some nondimensional coordinate of the sphere s of the cluster l, taken
   with its sign, is > 1e4 *)
Definition exceeds (k : float) (l : list Sphere) (s : Sphere) : bool :=
  fgt (fmul (fsub (vx (center s)) (vx (centroid l))) k) (of_int 10000)
  || fgt (fmul (fsub (vy (center s)) (vy (centroid l))) k) (of_int 10000)
  || fgt (fmul (fsub (vz (center s)) (vz (centroid l))) k) (of_int 10000).

Lemma any_gt_exceeds (k : float) (l : list Sphere) :
  any_gt (nondim_centers l k) (of_int 10000) = existsb (exceeds k l) l.
Proof.
  unfold nondim_centers, exceeds, centroid, any_gt, mul_scalar2, sub_row,
    centers.
  generalize (mean0 (map center l)). intros [[cx cy] cz].
  induction l as [|s l IH]; [reflexivity|].
  cbn [map existsb]. rewrite IH.
  destruct (center s) as [[x y] z]. reflexivity.
Qed.

(** X3.  The separation guard as the code has it, for a cluster whose
    radii pass: if some sphere has a nondimensional coordinate (centre minus
    centroid, times the wavevector) that is > 1e4, the run ends in
    UnrealizableScatterer naming the whole cluster, with the separation
    message and an empty trace; if no sphere has one, the solver is invoked.
    The coordinate is compared with its sign. *)
Theorem separation_guard (l : list Sphere) (target : Target) :
  radii_ok (wavevec (optics target)) l ->
  ((exists s, In s l /\ exceeds (wavevec (optics target)) l s = true) ->
   _calc_field ext self (SphereCluster l) target
   = ([], inl (UnrealizableScatterer self (inr (SphereCluster l))
                 separation_message)))
  /\
  ((forall s, In s l -> exceeds (wavevec (optics target)) l s = false) ->
   exists rest,
     trace (_calc_field ext self (SphereCluster l) target)
     = Ev_amncalc (amncalc_args self l target) :: rest).
Proof.
  intros Hr. split.
  - intros (s & Hin & Hs).
    apply calc_field_separation_fail; [exact Hr|].
    rewrite any_gt_exceeds. apply existsb_exists. exists s. auto.
  - intros Hall.
    assert (Hg : guards_pass l target).
    { split; [exact Hr|]. unfold separation_ok. rewrite any_gt_exceeds.
      destruct (existsb (exceeds (wavevec (optics target)) l) l) eqn:E;
        [|reflexivity].
      apply existsb_exists in E. destruct E as (s & Hin & Hs).
      rewrite (Hall s Hin) in Hs. discriminate. }
    rewrite (calc_field_guards_pass ext self l target Hg), bind_emit.
    eexists. reflexivity.
Qed.

(** X4.  The solver call of a cluster that passes the guards: each of the
    six arrays it receives has one entry per sphere, in the cluster's
    order; the flag is 1 and the control pair (0, 0); iteration cap,
    tolerances and method are the theory's; and the call is the same for
    any other target with the same wavevector and medium index, whatever
    its sample points, polarization, wavelength and layout. *)
Theorem solver_call_shape (l : list Sphere) (target : Target) :
  guards_pass l target ->
  exists a rest,
    trace (_calc_field ext self (SphereCluster l) target)
    = Ev_amncalc a :: rest /\
    length (a_x a) = length l /\ length (a_y a) = length l /\
    length (a_z a) = length l /\ length (a_mreal a) = length l /\
    length (a_mimag a) = length l /\ length (a_radii a) = length l /\
    a_flag a = 1%Z /\ a_ctl a = (0, 0)%Z /\
    a_niter a = niter self /\ a_eps a = eps self /\
    a_qeps1 a = qeps1 self /\ a_qeps2 a = qeps2 self /\
    a_meth a = meth self /\
    (forall target',
       wavevec (optics target') = wavevec (optics target) ->
       index (optics target') = index (optics target) ->
       amncalc_args self l target' = a).
Proof.
  intros Hg. exists (amncalc_args self l target).
  rewrite (calc_field_guards_pass ext self l target Hg), bind_emit.
  eexists. split; [reflexivity|].
  assert (Hsame : forall target',
             wavevec (optics target') = wavevec (optics target) ->
             index (optics target') = index (optics target) ->
             amncalc_args self l target' = amncalc_args self l target).
  { intros target' Hk Hi. unfold amncalc_args. rewrite Hk, Hi. reflexivity. }
  repeat match goal with |- _ /\ _ => split end; try exact Hsame;
    unfold amncalc_args;
    cbn [a_x a_y a_z a_mreal a_mimag a_radii a_flag a_ctl a_niter a_eps
         a_qeps1 a_qeps2 a_meth];
    try reflexivity;
    destruct (relative_index_parts l (index (optics target)))
      as [Hre Him];
    try rewrite Hre; try rewrite Him;
    unfold col0, col1, col2, nondim_centers, mul_scalar2, sub_row, centers,
      radii;
    rewrite !length_map; reflexivity.
Qed.

End Guards.

(** ** Truncation for any order, and the layout of the fields *)

Section Arrays.

Context {NP : NumPy}.

Variable ext : Externals.
Variable self : Multisphere.

Lemma slice0_prefix {A : Type} (stop : Z) (l : list A) :
  exists rest, l = slice0 stop l ++ rest.
Proof.
  unfold slice0. eexists. symmetry. apply firstn_skipn.
Qed.

Lemma slice0_count {A : Type} (stop : Z) (l : list A) :
  Z.of_nat (length (slice0 stop l))
  = if (stop <? 0)%Z
    then Z.max 0 (Z.of_nat (length l) + stop)
    else Z.min stop (Z.of_nat (length l)).
Proof.
  unfold slice0. rewrite length_firstn.
  destruct (stop <? 0)%Z eqn:E.
  - apply Z.ltb_lt in E. lia.
  - apply Z.ltb_ge in E. lia.
Qed.

(** X5.  The truncation amn0[:, 0:limit, :] for whatever order the solver
    returns.  The limit lmax^2 + 2*lmax is at least -1, and -1 only for
    lmax = -1.  Axis 0 keeps its length, and every plane that is kept is a
    prefix of the raw plane: of min(limit, length) entries when the limit is
    not negative (a raw plane shorter than the limit is kept whole, nothing
    is read out of range), and all but the last entry when it is -1. *)
Theorem truncation_any_order (res : AmncalcResult) :
  (-1 <= limit_of res)%Z /\
  (limit_of res = -1 <-> lmax res = -1)%Z /\
  length (amn_of res) = length (amn0 res) /\
  Forall2
    (fun raw kept =>
       (exists rest, raw = kept ++ rest) /\
       Z.of_nat (length kept)
       = if (limit_of res <? 0)%Z
         then Z.max 0 (Z.of_nat (length raw) - 1)
         else Z.min (limit_of res) (Z.of_nat (length raw)))
    (amn0 res) (amn_of res).
Proof.
  assert (H1 : (-1 <= limit_of res)%Z) by (unfold limit_of; nia).
  assert (H2 : (limit_of res = -1 <-> lmax res = -1)%Z)
    by (unfold limit_of; split; intros; nia).
  split; [exact H1|]. split; [exact H2|].
  unfold amn_of, slice_axis1. split; [apply length_map|].
  induction (amn0 res) as [|raw a IH]; cbn [map]; constructor; [|exact IH].
  split; [apply slice0_prefix|].
  rewrite slice0_count.
  destruct (limit_of res <? 0)%Z eqn:E; [|reflexivity].
  apply Z.ltb_lt in E. replace (limit_of res) with (-1)%Z by lia.
  reflexivity.
Qed.

(** X6.  If the reconstruction returns no value in its first component (a
    target without sample points), the run ends in IndexError at
    fields[0][0], after solver call, truncation, coefficient screen and
    reconstruction. *)
Theorem no_sample_points (l : list Sphere) (target : Target)
    (fy fz : list complex) :
  guards_pass l target ->
  converged (amncalc ext (amncalc_args self l target)) <> 0%Z ->
  any_isnan (amn_of (amncalc ext (amncalc_args self l target))) = false ->
  tmatrix_fields ext
    (tmatrix_args l target (amncalc ext (amncalc_args self l target)))
  = ([], fy, fz) ->
  _calc_field ext self (SphereCluster l) target
  = ([Ev_amncalc (amncalc_args self l target);
      Ev_truncate (limit_of (amncalc ext (amncalc_args self l target)));
      Ev_isnan_amn (amn_of (amncalc ext (amncalc_args self l target)));
      Ev_tmatrix_fields
        (tmatrix_args l target (amncalc ext (amncalc_args self l target)))],
     inl IndexError).
Proof.
  intros Hg Hc Hn Hf.
  rewrite (calc_field_guards_pass ext self l target Hg), bind_emit.
  rewrite (after_solver_screened ext self l target _ Hc Hn), Hf.
  reflexivity.
Qed.

(* the pairwise sum does not depend on the fuel, once it is the length of
   the array or more *)
Lemma pairwise_sum_fuel (f1 f2 : nat) (l : list float) :
  length l <= f1 -> length l <= f2 ->
  pairwise_sum f1 l = pairwise_sum f2 l.
Proof.
  revert f2 l. induction f1 as [|f1 IH]; intros f2 l H1 H2.
  - destruct f2; cbn [pairwise_sum];
      replace (length l <? 8) with true
        by (symmetry; apply Nat.ltb_lt; lia); reflexivity.
  - destruct f2 as [|f2].
    + cbn [pairwise_sum].
      replace (length l <? 8) with true
        by (symmetry; apply Nat.ltb_lt; lia). reflexivity.
    + cbn [pairwise_sum].
      destruct (length l <? 8) eqn:E8; [reflexivity|].
      destruct (length l <=? 128) eqn:E128; [reflexivity|].
      apply Nat.leb_gt in E128.
      assert (Hn : 0 < length l / 2 - (length l / 2) mod 8 < length l).
      { pose proof (Nat.mod_upper_bound (length l / 2) 8 ltac:(lia)).
        pose proof (Nat.div_mod_eq (length l) 2).
        pose proof (Nat.mod_upper_bound (length l) 2 ltac:(lia)). lia. }
      f_equal; apply IH; rewrite ?length_firstn, ?length_skipn; lia.
Qed.

(* np.vstack(fields).T: a row per sample point, whose entries are the
   three components at that point *)
Lemma zip3_some (a b c : list complex) (l : list cvec3) :
  zip3 a b c = Some l ->
  length a = length l /\ length b = length l /\ length c = length l /\
  map (fun v => fst (fst v)) l = a /\
  map (fun v => snd (fst v)) l = b /\
  map (fun v => snd v) l = c.
Proof.
  revert b c l. induction a as [|x a IH]; intros [|y b] [|z c] l H;
    cbn [zip3] in H; try discriminate.
  - injection H as <-. repeat split.
  - destruct (zip3 a b c) as [l'|] eqn:E; [|discriminate].
    injection H as <-. destruct (IH b c l' E) as (Ha & Hb & Hc & Hx & Hy & Hz).
    cbn [length map fst snd]. rewrite Ha, Hb, Hc, Hx, Hy, Hz.
    repeat split.
Qed.

Lemma zip3_none (a b c : list complex) :
  zip3 a b c = None <-> ~ (length a = length b /\ length b = length c).
Proof.
  revert b c. induction a as [|x a IH]; intros [|y b] [|z c];
    cbn [zip3 length]; split; intros H;
    try discriminate; try reflexivity;
    try (intros [H1 H2]; discriminate);
    try (exfalso; apply H; split; reflexivity).
  - destruct (zip3 a b c) eqn:E; [discriminate|].
    intros [H1 H2]. apply (proj1 (IH b c) E). split; congruence.
  - destruct (zip3 a b c) eqn:E; [|reflexivity].
    exfalso. apply H. destruct (zip3_some a b c l E) as (Ha & Hb & Hc & _).
    split; congruence.
Qed.

(** X7.  The layout of a result.  When a run returns a result, the three
    field components the reconstruction returned are nonempty and of one
    length, the stacked array has one row per sample point, its three
    columns are those components, and the result is that array mapped by
    from_1d with every value multiplied by the phase factor. *)
Theorem result_layout (l : list Sphere) (target : Target)
    (res : list cvec3) :
  outcome (_calc_field ext self (SphereCluster l) target) = inr res ->
  exists fx fy fz stacked,
    tmatrix_fields ext
      (tmatrix_args l target (amncalc ext (amncalc_args self l target)))
    = (fx, fy, fz) /\
    fx <> [] /\
    length fx = length stacked /\ length fy = length stacked /\
    length fz = length stacked /\
    map (fun v => fst (fst v)) stacked = fx /\
    map (fun v => snd (fst v)) stacked = fy /\
    map (fun v => snd v) stacked = fz /\
    res = scale (from_1d target stacked) (phase_factor ext l target).
Proof.
  intros H.
  destruct (success_inversion ext self l target res H)
    as (_ & _ & _ & v & fx & fy & fz & stacked & Hf & _ & _ & Hz & ->).
  destruct (zip3_some _ _ _ _ Hz) as (Ha & Hb & Hc & Hx & Hy & Hzz).
  exists (v :: fx), fy, fz, stacked.
  split; [exact Hf|]. split; [discriminate|].
  repeat (split; [assumption|]). reflexivity.
Qed.

(** X8.  When the first value of the x component is there and not NaN, the
    phase factor is computed before the fields are stacked: a zero medium
    wavelength ends the run in ZeroDivisionError whatever the lengths of the
    components; with a nonzero one the run ends in ValueError exactly when
    the three components returned by the reconstruction do not have one
    length (np.vstack cannot stack them). *)
Theorem mismatched_components (l : list Sphere) (target : Target)
    (v : complex) (fx fy fz : list complex) :
  guards_pass l target ->
  converged (amncalc ext (amncalc_args self l target)) <> 0%Z ->
  any_isnan (amn_of (amncalc ext (amncalc_args self l target))) = false ->
  tmatrix_fields ext
    (tmatrix_args l target (amncalc ext (amncalc_args self l target)))
  = (v :: fx, fy, fz) ->
  cisnan v = false ->
  (feq (med_wavelen (optics target)) (of_int 0) = true ->
   outcome (_calc_field ext self (SphereCluster l) target)
   = inl ZeroDivisionError)
  /\
  (feq (med_wavelen (optics target)) (of_int 0) = false ->
   (outcome (_calc_field ext self (SphereCluster l) target) = inl ValueError
    <-> ~ (length (v :: fx) = length fy /\ length fy = length fz))).
Proof.
  intros Hg Hc Hn Hf Hv.
  rewrite (calc_field_guards_pass ext self l target Hg), bind_emit.
  rewrite (after_solver_screened ext self l target _ Hc Hn), Hf.
  rewrite (after_fields_finite ext self l target v fx fy fz Hv).
  cbn [outcome snd]. split; intros Hw; rewrite Hw; [reflexivity|].
  rewrite <- zip3_none.
  destruct (zip3 (v :: fx) fy fz); split; intros H;
    try discriminate; reflexivity.
Qed.

End Arrays.

(** ** The classes of the exceptions *)

Section Classes.

Context {NP : NumPy}.

Variable ext : Externals.
Variable self : Multisphere.

(* isinstance(e, UnrealizableScatterer), by the class statements at the end
   of the module: MultisphereFieldNaN derives from UnrealizableScatterer,
   MultisphereExpansionNaN and ConvergenceFailureMultisphere from Exception;
   IndexError, ValueError and ZeroDivisionError are built in.  The class of
   TheoryNotCompatibleError is declared elsewhere: no answer for it. *)
Definition isinstance_UnrealizableScatterer (e : Exception) : option bool :=
  match e with
  | UnrealizableScatterer _ _ _ => Some true
  | MultisphereFieldNaN _ _ _ => Some true
  | MultisphereExpansionNaN => Some false
  | ConvergenceFailureMultisphere => Some false
  | IndexError => Some false
  | ValueError => Some false
  | ZeroDivisionError => Some false
  | TheoryNotCompatibleError _ _ => None
  end.

(** X9.  What a handler for UnrealizableScatterer catches of a run on a
    cluster: the two guard errors and MultisphereFieldNaN, each carrying the
    theory; it does not catch ConvergenceFailureMultisphere,
    MultisphereExpansionNaN, IndexError, ValueError or the ZeroDivisionError
    of the phase factor, and a run raises nothing else. *)
Theorem unrealizable_handler (l : list Sphere) (target : Target)
    (e : Exception) :
  outcome (_calc_field ext self (SphereCluster l) target) = inl e ->
  (isinstance_UnrealizableScatterer e = Some true /\
   ((exists s, In s l /\
       e = UnrealizableScatterer self (inl s) radius_message) \/
    e = UnrealizableScatterer self (inr (SphereCluster l))
          separation_message \/
    e = MultisphereFieldNaN self (SphereCluster l) ""))
  \/
  (isinstance_UnrealizableScatterer e = Some false /\
   (e = ConvergenceFailureMultisphere \/ e = MultisphereExpansionNaN \/
    e = IndexError \/ e = ValueError \/ e = ZeroDivisionError)).
Proof.
  intros H.
  destruct (cluster_outcome ext self l target)
    as [(s & Hin & _ & E)|[E|[E|[E|[E|[E|[E|[E|[v E]]]]]]]]];
    rewrite E in H; try discriminate; injection H as <-.
  - left. split; [reflexivity|]. left. exists s. auto.
  - left. split; [reflexivity|]. right. left. reflexivity.
  - right. split; [reflexivity|]. left. reflexivity.
  - right. split; [reflexivity|]. right. left. reflexivity.
  - right. split; [reflexivity|]. right. right. left. reflexivity.
  - left. split; [reflexivity|]. right. right. reflexivity.
  - right. split; [reflexivity|]. right. right. right. left. reflexivity.
  - right. split; [reflexivity|]. right. right. right. right. reflexivity.
Qed.

End Classes.

(** ** Exact arithmetic: the centred coordinates and the phase *)

Section Centred.

#[local] Existing Instance exact.
#[local] Open Scope R_scope.





End Centred.

Section Phase.

#[local] Existing Instance exact.
#[local] Open Scope R_scope.

(** X11.  In exact arithmetic, with np.exp the complex exponential and a
    nonzero medium wavelength, the phase correction changes no magnitude:
    the moduli of the values a run returns are those of the reconstructed
    fields as from_1d maps them. *)
Theorem phase_keeps_magnitudes (ext : Externals) (self : Multisphere)
    (l : list Sphere) (target : Target) (res : list cvec3) :
  (forall c, np_exp ext c = Exact.cexp c) ->
  med_wavelen (optics target) <> 0 ->
  outcome (_calc_field ext self (SphereCluster l) target) = inr res ->
  exists stacked,
    vstack_T (tmatrix_fields ext
                (tmatrix_args l target
                   (amncalc ext (amncalc_args self l target))))
    = ret stacked /\
    magnitudes res = magnitudes (from_1d target stacked).
Proof.
  intros Hexp Hw H.
  destruct (success_inversion ext self l target res H)
    as (_ & _ & _ & v & fx & fy & fz & stacked & Hf & _ & _ & Hz & ->).
  exists stacked. rewrite Hf. unfold vstack_T. rewrite Hz.
  split; [reflexivity|].
  unfold phase_factor. rewrite Hexp, (phase_argument_exact _ _ Hw).
  apply magnitudes_scale, cexp_unit.
Qed.

Lemma cos_sin_turns (n : Z) :
  cos (2 * PI * IZR n) = 1 /\ sin (2 * PI * IZR n) = 0.
Proof.
  assert (Hnat : forall k : nat,
            cos (2 * PI * INR k) = 1 /\ sin (2 * PI * INR k) = 0).
  { intros k.
    replace (2 * PI * INR k) with (0 + 2 * INR k * PI) by ring.
    rewrite cos_period, sin_period, cos_0, sin_0. split; reflexivity. }
  destruct (Z_le_gt_dec 0 n) as [Hn|Hn].
  - rewrite <- (Z2Nat.id n Hn), <- INR_IZR_INZ. apply Hnat.
  - replace (IZR n) with (- INR (Z.to_nat (- n))).
    + replace (2 * PI * - INR (Z.to_nat (- n)))
        with (- (2 * PI * INR (Z.to_nat (- n)))) by ring.
      rewrite cos_neg, sin_neg.
      destruct (Hnat (Z.to_nat (- n))) as [-> ->]. split; ring.
    + rewrite INR_IZR_INZ, Z2Nat.id by lia. rewrite opp_IZR. ring.
Qed.

(** X12.  In exact arithmetic, with np.exp the complex exponential and a
    nonzero medium wavelength, the phase factor has the period of the
    wavelength: moving every centre of a nonempty cluster along z by a
    whole number of medium wavelengths leaves it as it was. *)
Theorem phase_factor_periodic (ext : Externals) (l : list Sphere)
    (target target' : Target) (turns : Z) :
  l <> [] ->
  med_wavelen (optics target) <> 0 ->
  (forall c, np_exp ext c = Exact.cexp c) ->
  optics target' = optics target ->
  phase_factor ext
    (translate (0, 0, IZR turns * med_wavelen (optics target)) l) target'
  = phase_factor ext l target.
Proof.
  intros Hl Hw Hexp Hopt.
  destruct (phase_factor_translate ext l target target'
              (IZR turns * med_wavelen (optics target)) Hl Hw Hexp Hopt)
    as [_ ->].
  replace (- (2 * PI * (IZR turns * med_wavelen (optics target))
              / med_wavelen (optics target)))
    with (- (2 * PI * IZR turns)) by (field; exact Hw).
  unfold Exact.cexp. cbn [fst snd].
  rewrite cos_neg, sin_neg, exp_0.
  destruct (cos_sin_turns turns) as [-> ->].
  destruct (phase_factor ext l target) as [p1 p2].
  unfold Exact.mul. cbn [fst snd]. apply f_equal2; ring.
Qed.

(** X13.  In exact arithmetic a cluster of one sphere sits at the origin of
    the solver's coordinates: the separation guard lets it through whatever
    its centre and the wavevector, and the solver receives x = y = z = 0. *)
Theorem single_sphere_at_origin (self : Multisphere) (s : Sphere)
    (target : Target) :
  separation_ok (wavevec (optics target)) [s] /\
  a_x (amncalc_args self [s] target) = [0] /\
  a_y (amncalc_args self [s] target) = [0] /\
  a_z (amncalc_args self [s] target) = [0].
Proof.
  assert (E : forall x k : R, (x - x / 1) * k = 0) by (intros; field).
  assert (E' : Ropp (IZR 1) * 0 = 0) by ring.
  unfold separation_ok, amncalc_args. cbn [a_x a_y a_z].
  unfold nondim_centers, mean0, np_mean, np_sum, col0, col1, col2,
    mul_scalar2, sub_row, centers, any_gt.
  cbn [map fold_left length existsb Z.of_nat Pos.of_succ_nat].
  destruct (center s) as [[x y] z].
  cbv beta iota zeta delta
    [fsub fmul fdiv fneg fgt of_int float exact fst snd].
  rewrite !E, E'. rewrite !RunExact.gt_false by lra.
  repeat split.
Qed.

End Phase.

(** ** Binary64: sums and quotients, NaN at the guards, the constructor *)

Module More64.

#[local] Existing Instance binary64.
#[local] Set Warnings "-inexact-float".
#[local] Open Scope float_scope.

Lemma is_nan_Prim2SF (x : PrimFloat.float) :
  PrimFloat.is_nan x = true -> Prim2SF x = S754_nan.
Proof.
  unfold PrimFloat.is_nan. rewrite eqb_spec. unfold SFeqb.
  destruct (Prim2SF x) as [s|s| |s m e]; cbn [SFcompare];
    try (destruct s; discriminate); try reflexivity.
  rewrite Z.compare_refl.
  change (PosDef.Pos.compare_cont Eq m m) with (Pos.compare m m).
  rewrite Pos.compare_refl. destruct s; discriminate.
Qed.

Lemma gt_nan (c x : PrimFloat.float) :
  Prim2SF x = S754_nan -> PrimFloat.ltb c x = false.
Proof.
  intros H. rewrite ltb_spec, H. unfold SFltb.
  destruct (Prim2SF c); reflexivity.
Qed.

Lemma mul_nan_r (x k : PrimFloat.float) :
  Prim2SF k = S754_nan -> Prim2SF (x * k) = S754_nan.
Proof.
  intros H. rewrite mul_spec, H. unfold SF64mul, SFmul.
  destruct (Prim2SF x); reflexivity.
Qed.

Lemma mul_nan_l (x k : PrimFloat.float) :
  Prim2SF x = S754_nan -> Prim2SF (x * k) = S754_nan.
Proof. intros H. rewrite mul_spec, H. reflexivity. Qed.

(* the mean of a 1-d array against the mean over axis 0 of the same values:
   from eight values on the order of the additions differs, and so can the
   rounded result *)
Definition nine : list PrimFloat.float :=
  [1; 0x1p-53; 0x1p-53; 0x1p-53; 0x1p-53; 0x1p-53; 0x1p-53; 0x1p-53; 0x1p-53].

Lemma mean_of_nine :
  np_mean_1d nine = 0x1.0000000000004p+0 / 9 /\ np_mean nine = 1 / 9.
Proof. split; vm_compute; reflexivity. Qed.

(* a sum of negative zeros is a negative zero *)
Lemma mean_of_negative_zeros :
  np_mean_1d [-0.0; -0.0] = -0.0 /\ np_mean [-0.0; -0.0] = -0.0.
Proof. split; vm_compute; reflexivity. Qed.

(* the argument of np.exp at values where the way of dividing and the order
   of the additions show in the last bits *)
Lemma phase_argument_values :
  phase_argument 0.3 0.405 = (0, -0x1.29de993c0b91bp+2) /\
  phase_argument (np_mean_1d nine) 0.66 = (0, -0x1.0eca5cc239106p+0).
Proof. split; vm_compute; reflexivity. Qed.

(* the relative index of a sphere of index 1.59 in a medium of index 1.33,
   a quotient of floats *)
Lemma relative_index_value :
  array_real
    (relative_index [{| n := PyFloat 1.59; r := 0.5; center := (0, 0, 0) |}]
       1.33)
  = [0x1.320b8c82e320cp+0].
Proof. vm_compute. reflexivity. Qed.

(** X14.  In binary64 a NaN never trips a guard, because every comparison
    with NaN is false: with a NaN wavevector every cluster passes both
    guards and reaches the solver, and spheres whose radius is NaN pass the
    radius guard whatever the wavevector. *)
Theorem nan_passes_guards :
  (forall (l : list Sphere) (target : Target),
     PrimFloat.is_nan (wavevec (optics target)) = true ->
     guards_pass l target)
  /\
  (forall (l : list Sphere) (k : PrimFloat.float),
     (forall s, In s l -> PrimFloat.is_nan (r s) = true) ->
     radii_ok k l).
Proof.
  split.
  - intros l target Hk. apply is_nan_Prim2SF in Hk. split.
    + intros s _.
      change (PrimFloat.ltb (of_int 1000)
                (r s * wavevec (optics target)) = false).
      apply gt_nan, mul_nan_r, Hk.
    + unfold separation_ok. rewrite any_gt_exceeds.
      destruct (existsb (exceeds (wavevec (optics target)) l) l) eqn:E;
        [|reflexivity].
      apply existsb_exists in E. destruct E as (s & _ & Hs).
      unfold exceeds in Hs.
      change (PrimFloat.ltb (of_int 10000)
                ((vx (center s) - vx (centroid l))
                 * wavevec (optics target))
              || PrimFloat.ltb (of_int 10000)
                   ((vy (center s) - vy (centroid l))
                    * wavevec (optics target))
              || PrimFloat.ltb (of_int 10000)
                   ((vz (center s) - vz (centroid l))
                    * wavevec (optics target)) = true) in Hs.
      rewrite !gt_nan in Hs by (apply mul_nan_r, Hk). discriminate.
  - intros l k Hl s Hs.
    change (PrimFloat.ltb (of_int 1000) (r s * k) = false).
    apply gt_nan, mul_nan_l, is_nan_Prim2SF, Hl, Hs.
Qed.

(* Multisphere.__init__: each parameter, or its default when it is not
   given; the call of the base class constructor is outside the sources *)
Definition __init__ (niter : option Z) (eps : option PrimFloat.float)
    (meth : option Z) (qeps1 qeps2 : option PrimFloat.float) : Multisphere :=
  Build_Multisphere
    (match niter with Some v => v | None => 200%Z end)
    (match eps with Some v => v | None => 1e-6 end)
    (match meth with Some v => v | None => 1%Z end)
    (match qeps1 with Some v => v | None => 1e-5 end)
    (match qeps2 with Some v => v | None => 1e-8 end).

(** X15.  From the constructor to the solver.  A theory built by __init__
    hands the solver its iteration cap, then eps, qeps1, qeps2 and the
    method last (the constructor takes the method third), each the value
    given to the constructor or else the default: 200, 1e-6, 1e-5, 1e-8 and
    method 1. *)
Theorem init_reaches_solver (ext : Externals) (niter : option Z)
    (eps : option PrimFloat.float) (meth : option Z)
    (qeps1 qeps2 : option PrimFloat.float) (l : list Sphere)
    (target : Target) :
  guards_pass l target ->
  exists a rest,
    trace (_calc_field ext (__init__ niter eps meth qeps1 qeps2)
             (SphereCluster l) target)
    = Ev_amncalc a :: rest /\
    a_niter a = match niter with Some v => v | None => 200%Z end /\
    a_eps a = match eps with Some v => v | None => 1e-6 end /\
    a_qeps1 a = match qeps1 with Some v => v | None => 1e-5 end /\
    a_qeps2 a = match qeps2 with Some v => v | None => 1e-8 end /\
    a_meth a = match meth with Some v => v | None => 1%Z end.
Proof.
  intros Hg.
  rewrite (calc_field_guards_pass ext _ l target Hg), bind_emit.
  eexists. eexists. split; [reflexivity|]. repeat split.
Qed.

End More64.

(** ** Witnesses in binary64 *)

Module Witness64.

Import Run64.
#[local] Existing Instance binary64.
#[local] Set Warnings "-inexact-float".
#[local] Open Scope float_scope.

Lemma mirrored_radii_ok : radii_ok 1 mirrored.
Proof. intros s [<-|[<-|[<-|[]]]]; vm_compute; reflexivity. Defined.

(* Witness of X3: the mirrored cluster is rejected, the pair goes on. *)
Lemma separation_guard_witness :
  _calc_field ext_ok theory (SphereCluster mirrored) target1
  = ([], inl (UnrealizableScatterer theory (inr (SphereCluster mirrored))
                separation_message))
  /\
  exists rest,
    trace (_calc_field ext_ok theory (SphereCluster pair) target1)
    = Ev_amncalc (amncalc_args theory pair target1) :: rest.
Proof.
  split.
  - apply (proj1 (separation_guard ext_ok theory mirrored target1
                    mirrored_radii_ok)).
    exists (sphere_at 0.5 20000 0 0). split; [left; reflexivity|].
    vm_compute. reflexivity.
  - apply (proj2 (separation_guard ext_ok theory pair target1
                    (proj1 pair_guards_pass))).
    intros s [<-|[<-|[]]]; vm_compute; reflexivity.
Defined.

(* Witness of X4. *)
Lemma solver_call_shape_witness :
  exists a rest,
    trace (_calc_field ext_ok theory (SphereCluster pair) target1)
    = Ev_amncalc a :: rest /\
    length (a_x a) = 2%nat /\ length (a_radii a) = 2%nat /\
    a_niter a = 200%Z /\ a_meth a = 1%Z.
Proof.
  destruct (solver_call_shape ext_ok theory pair target1 pair_guards_pass)
    as (a & rest & Ht & Hx & _ & _ & _ & _ & Hr & _ & _ & Hn & _ & _ & _
        & Hm & _).
  exists a, rest. repeat split; assumption.
Defined.

(* a reconstruction that returns nothing *)
Definition ext_no_points : Externals :=
  stub 1 (raw_amn (3, 0) (7, 7)) ([], [], []).

(* Witness of X6. *)
Lemma no_sample_points_witness :
  outcome (_calc_field ext_no_points theory (SphereCluster pair) target1)
  = inl IndexError.
Proof.
  rewrite (no_sample_points ext_no_points theory pair target1 [] []
             pair_guards_pass ltac:(cbn; discriminate) eq_refl eq_refl).
  reflexivity.
Defined.

(* nine spheres on the z axis, at z = 1 and eight times at z = 2^-53, in a
   medium of wavelength 0.66: z.mean() is summed pairwise and is
   (1 + 2^-50) / 9, the argument of np.exp is -i 1.0577..., and np.exp has
   there the value the C library returns *)
Definition nonet : list Sphere := map (sphere_at 0.5 0 0) More64.nine.

Definition target_nonet : Target :=
  {| optics := {| wavevec := 1; index := 1.33; med_wavelen := 0.66;
                  polarization := (1, 0) |};
     positions_kr_theta_phi := fun _ => [(10, 1, 0); (10, 1, 1)];
     from_1d := fun x => x |}.

Definition ext_nonet : Externals :=
  {| amncalc := amncalc ext_ok;
     tmatrix_fields := tmatrix_fields ext_ok;
     np_exp := fun c =>
       if PrimFloat.eqb (imag c) (-0x1.0eca5cc239106p+0)
       then (0x1.f69750a5acd61p-2, -0x1.be168ac94909ap-1)
       else exp_table c |}.

Definition res_nonet : list cvec3 :=
  [((0x1.f69750a5acd61p-2, -0x1.be168ac94909ap-1),
    (0x1.be168ac94909ap-1, 0x1.f69750a5acd61p-2), (0, 0));
   ((0x1.f69750a5acd61p-1, -0x1.be168ac94909ap+0),
    (0x1.be168ac94909ap+0, 0x1.f69750a5acd61p-1), (0, 0))].

Lemma nonet_result :
  outcome (_calc_field ext_nonet theory (SphereCluster nonet) target_nonet)
  = inr res_nonet.
Proof. vm_compute. reflexivity. Defined.

(* Witness of X7: the two-sphere cluster, whose phase factor is 1, and the
   nine spheres. *)
Lemma result_layout_witness :
  (exists fx fy fz stacked,
     tmatrix_fields ext_ok
       (tmatrix_args pair target1 (amncalc ext_ok pair_args))
     = (fx, fy, fz) /\
     length fx = length stacked /\
     map (fun v : cvec3 => fst (fst v)) stacked = fx)
  /\
  (exists stacked,
     map (fun v : cvec3 => fst (fst v)) stacked = [(1, 0); (2, 0)] /\
     map (fun v : cvec3 => snd (fst v)) stacked = [(0, 1); (0, 2)] /\
     map (fun v : cvec3 => snd v) stacked = [(0, 0); (0, 0)] /\
     res_nonet
     = scale stacked (0x1.f69750a5acd61p-2, -0x1.be168ac94909ap-1)).
Proof.
  split.
  - destruct (result_layout ext_ok theory pair target1
                [(1, 0, (0, 1), (0, 0)); (2, 0, (0, 2), (0, 0))] eq_refl)
      as (fx & fy & fz & stacked & Hf & _ & Hl & _ & _ & Hx & _).
    exists fx, fy, fz, stacked. repeat split; assumption.
  - destruct (result_layout ext_nonet theory nonet target_nonet res_nonet
                nonet_result)
      as (fx & fy & fz & stacked & Hf & _ & _ & _ & _ & Hx & Hy & Hz & Hr).
    injection Hf as <- <- <-.
    exists stacked. repeat split; assumption.
Defined.

(* the y component one value short *)
Definition ext_mismatch : Externals :=
  stub 1 (raw_amn (3, 0) (7, 7))
    ([(1, 0); (2, 0)], [(0, 1)], [(0, 0); (0, 0)]).

(* target1 with a medium wavelength of zero *)
Definition target_zero : Target :=
  {| optics := {| wavevec := 1; index := 1.33; med_wavelen := 0;
                  polarization := (1, 0) |};
     positions_kr_theta_phi := fun _ => [(10, 1, 0); (10, 1, 1)];
     from_1d := fun x => x |}.

(* Witness of X8: the mismatched components with the wavelength 2 pi, and
   with the wavelength 0. *)
Lemma mismatched_components_witness :
  outcome (_calc_field ext_mismatch theory (SphereCluster pair) target1)
  = inl ValueError /\
  outcome (_calc_field ext_mismatch theory (SphereCluster pair) target_zero)
  = inl ZeroDivisionError.
Proof.
  split.
  - apply (proj2 (proj2 (mismatched_components ext_mismatch theory pair
                           target1 (1, 0) [(2, 0)] [(0, 1)] [(0, 0); (0, 0)]
                           pair_guards_pass ltac:(cbn; discriminate)
                           eq_refl eq_refl eq_refl) eq_refl)).
    intros [H _]. discriminate.
  - apply (proj1 (mismatched_components ext_mismatch theory pair
                    target_zero (1, 0) [(2, 0)] [(0, 1)] [(0, 0); (0, 0)]
                    pair_guards_pass ltac:(cbn; discriminate)
                    eq_refl eq_refl eq_refl) eq_refl).
Defined.

(* Witness of X9: the separation error of the mirrored cluster. *)
Lemma unrealizable_handler_witness :
  isinstance_UnrealizableScatterer
    (UnrealizableScatterer theory (inr (SphereCluster mirrored))
       separation_message)
  = Some true.
Proof.
  destruct (unrealizable_handler ext_ok theory mirrored target1
              (UnrealizableScatterer theory (inr (SphereCluster mirrored))
                 separation_message) eq_refl)
    as [[H _]|[H _]]; [exact H|discriminate].
Defined.

(* a target whose wavevector is NaN, and a sphere whose radius is NaN *)
Definition target_nan : Target :=
  {| optics := {| wavevec := nan; index := 1.33; med_wavelen := 1;
                  polarization := (1, 0) |};
     positions_kr_theta_phi := fun _ => [(10, 1, 0)];
     from_1d := fun x => x |}.

(* Witness of X14. *)
Lemma nan_passes_guards_witness :
  guards_pass oversized target_nan /\
  radii_ok 1 [sphere_at nan 0 0 0].
Proof.
  split.
  - apply (proj1 More64.nan_passes_guards). reflexivity.
  - apply (proj2 More64.nan_passes_guards).
    intros s [<-|[]]. reflexivity.
Defined.

(* Witness of X15: Multisphere(meth=0). *)
Lemma init_reaches_solver_witness :
  exists a rest,
    trace (_calc_field ext_ok
             (More64.__init__ None None (Some 0%Z) None None)
             (SphereCluster pair) target1)
    = Ev_amncalc a :: rest /\
    a_niter a = 200%Z /\ a_eps a = 1e-6 /\ a_qeps1 a = 1e-5 /\
    a_qeps2 a = 1e-8 /\ a_meth a = 0%Z.
Proof.
  exact (More64.init_reaches_solver ext_ok None None (Some 0%Z) None None
           pair target1 pair_guards_pass).
Defined.

End Witness64.

(** ** Witnesses in exact arithmetic *)

Module WitnessExact.

Import RunExact.
#[local] Existing Instance exact.
#[local] Open Scope R_scope.


(* Witness of X11. *)
Lemma phase_keeps_magnitudes_witness :
  exists stacked,
    vstack_T (tmatrix_fields ext1
                (tmatrix_args single target1
                   (amncalc ext1 (amncalc_args theory single target1))))
    = ret stacked /\
    magnitudes res1 = magnitudes (from_1d target1 stacked).
Proof.
  apply (phase_keeps_magnitudes ext1 theory single target1 res1).
  - reflexivity.
  - cbn. lra.
  - exact single_result.
Defined.

(* Witness of X12: three wavelengths. *)
Lemma phase_factor_periodic_witness :
  phase_factor ext1
    (translate (0, 0, 3 * med_wavelen (optics target1)) single) target1
  = phase_factor ext1 single target1.
Proof.
  apply (phase_factor_periodic ext1 single target1 target1 3).
  - discriminate.
  - cbn. lra.
  - reflexivity.
  - reflexivity.
Defined.

End WitnessExact.
